(** * reposter.py: the SendGrid event reposter, its uploaders and dispatcher

    A shallow embedding of [src/reposter.py].  Python objects that the
    program mutates ([Uploader], [EventDispatcher]) are records threaded
    through a small state/exception/output monad; dictionaries are
    [gmap]s; the calls that leave the process ([getPage], [logging]) are
    recorded as an output trace. *)

From Stdlib Require Import ZArith List Permutation.
From stdpp Require Import base option list strings pretty gmap fin_maps.

Import ListNotations.
Open Scope string_scope.
Open Scope list_scope.

#[local] Set Warnings "-register-all".

(** ** Values *)

(** What [json.loads] yields: [None], booleans, numbers, strings, lists
    and dictionaries keyed by strings.  The program never computes on a
    number, so a float is carried by its literal. *)
Inductive json : Type :=
| JNull
| JBool (b : bool)
| JInt (n : Z)
| JFloat (lit : string)
| JStr (s : string)
| JArr (items : list json)
| JObj (fields : gmap string json).

(** The exceptions the modelled code can raise. *)
Inductive exn : Type :=
| KeyError (key : json)
| AttributeError (attr : string)
| TypeError (msg : string).

Inductive result (A : Type) : Type :=
| Ok (a : A)
| Raise (e : exn).
Arguments Ok {A} a.
Arguments Raise {A} e.

(** A lookup failure is Python's [KeyError]. *)
Definition is_lookup_failure {A} (r : result A) : Prop :=
  match r with Raise (KeyError _) => True | _ => False end.

(** ** Calls that leave the process *)

(** The arguments of one [getPage] call. *)
Record Request : Type := mkRequest {
  req_url : string;
  req_headers : list (string * string);
  req_method : string;
  req_postdata : string
}.

Inductive level : Type := INFO | ERROR.

Inductive effect : Type :=
| Log (lvl : level) (fmt : string) (args : list json)
| GetPage (req : Request).

(** The outbound calls among the effects of a step. *)
Definition posts (out : list effect) : list Request :=
  omap (fun e => match e with GetPage r => Some r | Log _ _ _ => None end) out.

(** ** The monad of method bodies

    A method body runs on the state of [self]; it yields a value or
    raises, and in both cases leaves a state and a trace of effects:
    what was assigned before a [raise] stays assigned. *)
Definition Py (St A : Type) : Type := St -> result A * St * list effect.

Definition ret {St A} (a : A) : Py St A := fun s => (Ok a, s, []).

Definition bind {St A B} (m : Py St A) (f : A -> Py St B) : Py St B :=
  fun s =>
    match m s with
    | (Ok a, s1, o1) => let '(r, s2, o2) := f a s1 in (r, s2, o1 ++ o2)
    | (Raise e, s1, o1) => (Raise e, s1, o1)
    end.

Definition raise {St A} (e : exn) : Py St A := fun s => (Raise e, s, []).
Definition get {St} : Py St St := fun s => (Ok s, s, []).
Definition put {St} (s : St) : Py St unit := fun _ => (Ok tt, s, []).
Definition emit {St} (e : effect) : Py St unit := fun s => (Ok tt, s, [e]).
Definition lift {St A} (r : result A) : Py St A := fun s => (r, s, []).

Declare Scope py_scope.
Delimit Scope py_scope with py.
Notation "x <- m ;; k" := (bind m (fun x => k))
  (at level 100, m at next level, right associativity) : py_scope.
Notation "m ;; k" := (bind m (fun _ => k))
  (at level 100, right associativity) : py_scope.

(** Projections of the outcome of a method call. *)
Definition outcome {St A} (x : result A * St * list effect) : result A := x.1.1.
Definition state_after {St A} (x : result A * St * list effect) : St := x.1.2.
Definition effects {St A} (x : result A * St * list effect) : list effect := x.2.

(** ** Dictionary access *)

(** [obj.get(key, dflt)]: only a dictionary has the method. *)
Definition py_get (obj : json) (key : string) (dflt : json) : result json :=
  match obj with
  | JObj d => Ok (default dflt (d !! key))
  | _ => Raise (AttributeError "get")
  end.

(** [obj[key]] with a string key. *)
Definition py_getitem (obj : json) (key : string) : result json :=
  match obj with
  | JObj d => match d !! key with
              | Some v => Ok v
              | None => Raise (KeyError (JStr key))
              end
  | JArr _ => Raise (TypeError "list indices must be integers")
  | JStr _ => Raise (TypeError "string indices must be integers")
  | _ => Raise (TypeError "object has no attribute '__getitem__'")
  end.

(** The name of the type of a value, as the interpreter's messages give
    it.  An integer that [json.loads] read is an [int] when it fits the
    machine word; beyond it Python 2 makes a [long], which [JInt] does
    not tell apart. *)
Definition py_type_name (obj : json) : string :=
  match obj with
  | JNull => "NoneType"
  | JBool _ => "bool"
  | JInt _ => "int"
  | JFloat _ => "float"
  | JStr _ => "unicode"
  | JArr _ => "list"
  | JObj _ => "dict"
  end.

(** [for x in obj]: the items of a list, the keys of a dictionary, the
    characters of a string; nothing else can be iterated, and the
    [TypeError] names the type. *)
Definition py_iter (obj : json) : result (list json) :=
  match obj with
  | JArr items => Ok items
  | JObj d => Ok (JStr <$> (map_to_list d).*1)
  | JStr s => Ok ((fun c => JStr (String c EmptyString)) <$> String.list_ascii_of_string s)
  | _ => Raise (TypeError ("'" +:+ py_type_name obj +:+ "' object is not iterable"))
  end.

(** [len(l)] as a Python integer. *)
Definition py_len (l : list json) : json := JInt (Z.of_nat (length l)).

(** ** [class Uploader] *)

Module Uploader.

(** The attributes of one uploader.  [deferred] is [None] or the
    [Deferred] of the page request under way, which is kept here by the
    request it stands for; a [Deferred] object is true in a condition.
    [events_being_sent] is not assigned by [__init__]: it is [None] until
    the first [run] that sends. *)
Record t : Type := mk {
  name : string;
  url : string;
  deferred : option Request;
  queue : list json;
  events_being_sent : option (list json)
}.

Definition set_deferred (d : option Request) (self : t) : t :=
  mk (name self) (url self) d (queue self) (events_being_sent self).
Definition set_queue (q : list json) (self : t) : t :=
  mk (name self) (url self) (deferred self) q (events_being_sent self).
Definition set_events_being_sent (b : list json) (self : t) : t :=
  mk (name self) (url self) (deferred self) (queue self) (Some b).

(** [Uploader(name, url)] *)
Definition init (name url : string) : t :=
  mk name url None [] None.

(** Reading [self.events_being_sent]. *)
Definition get_events_being_sent : Py t (list json) :=
  (self <- get ;;
   match events_being_sent self with
   | Some b => ret b
   | None => raise (AttributeError "events_being_sent")
   end)%py.

Definition modify (f : t -> t) : Py t unit :=
  (self <- get ;; put (f self))%py.

Definition append (event : json) : Py t unit :=
  (self <- get ;;
   put (set_queue (queue self ++ [event]) self))%py.

Section Methods.

(** [json.dumps], the library's serializer. *)
Variable json_dumps : json -> string.

Definition run : Py t unit :=
  (self <- get ;;
   if bool_decide (is_Some (deferred self)) || (length (queue self) =? 0)%nat
   then ret tt
   else
     modify (set_events_being_sent (queue self)) ;;
     modify (set_queue []) ;;
     batch <- get_events_being_sent ;;
     let req := mkRequest (url self) [] "POST" (json_dumps (JArr batch)) in
     emit (GetPage req) ;;
     (* addCallback and addErrback: the reactor calls one of
        deferred_callback and deferred_errback when the page ends *)
     modify (set_deferred (Some req)))%py.

End Methods.

Definition deferred_callback (response : string) : Py t unit :=
  (batch <- get_events_being_sent ;;
   self <- get ;;
   emit (Log INFO "Uploaded %d events to %s" [py_len batch; JStr (name self)]) ;;
   modify (set_events_being_sent []) ;;
   modify (set_deferred None))%py.

(** [error] is the failure as [repr] prints it. *)
Definition deferred_errback (error : string) : Py t unit :=
  (self <- get ;;
   emit (Log ERROR "Could not upload events for %s: %s"
           [JStr (name self); JStr error]) ;;
   batch <- get_events_being_sent ;;
   self <- get ;;
   put (set_queue (batch ++ queue self) self) ;;
   modify (set_deferred None))%py.

End Uploader.

(** ** [class EventDispatcher] *)

(** A [for] loop over a list: the body runs on each item in turn, and a
    raise in the body ends the loop. *)
Fixpoint for_each {St A} (items : list A) (body : A -> Py St unit) : Py St unit :=
  match items with
  | [] => ret tt
  | x :: rest => (body x ;; for_each rest body)%py
  end.

Module EventDispatcher.

Record t : Type := mk {
  uploaders : gmap string Uploader.t
}.

(** [self.uploaders[name] = uploader] *)
Definition set_uploader (name : string) (uploader : Uploader.t) (self : t) : t :=
  mk (<[name := uploader]> (uploaders self)).

(** [EventDispatcher()], given [settings.DEPLOYMENT_URLS].  The
    dictionary is walked in the order [map_to_list] gives, which stands
    for the order of Python's [items()]. *)
Definition init (DEPLOYMENT_URLS : gmap string string) : Py t unit :=
  (put (mk ∅) ;;
   for_each (map_to_list DEPLOYMENT_URLS)
     (fun '(name, url) =>
        self <- get ;; put (set_uploader name (Uploader.init name url) self)) ;;
   self <- get ;;
   let keys := (map_to_list (uploaders self)).*1 in
   emit (Log INFO "%d uploaders: %r"
           [JInt (Z.of_nat (length keys)); JArr (JStr <$> keys)]))%py.

(** The dispatcher [EventDispatcher()] builds. *)
Definition create (DEPLOYMENT_URLS : gmap string string) : t :=
  state_after (init DEPLOYMENT_URLS (mk ∅)).

Definition get_uploader_name (event : json) : result json :=
  match py_get event "unique_args" (JObj ∅) with
  | Ok unique_args => py_get unique_args "deployment" (JStr "DEFAULT")
  | Raise e => Raise e
  end.

(** [self.uploaders[name].m(...)]: the lookup of [name], then the method
    [m] run on the uploader found, which stays in the dictionary.  The
    keys of the dictionary are strings; a list or a dictionary cannot be
    hashed, and any other value is a key that is not there. *)
Definition on_uploader {A} (name : json) (m : Py Uploader.t A) : Py t A :=
  fun self =>
    match name with
    | JStr key =>
        match uploaders self !! key with
        | Some uploader =>
            let '(r, uploader', out) := m uploader in
            (r, set_uploader key uploader' self, out)
        | None => (Raise (KeyError name), self, [])
        end
    | JArr _ => (Raise (TypeError "unhashable type: 'list'"), self, [])
    | JObj _ => (Raise (TypeError "unhashable type: 'dict'"), self, [])
    | _ => (Raise (KeyError name), self, [])
    end.

Definition add_event (event : json) : Py t unit :=
  (name <- lift (get_uploader_name event) ;;
   event_type <- lift (py_getitem event "event") ;;
   email <- lift (py_getitem event "email") ;;
   emit (Log INFO "ADD_EVENT: %s %s -> uploader %s" [event_type; email; name]) ;;
   on_uploader name (Uploader.append event))%py.

Section Methods.

Variable json_dumps : json -> string.

Definition dispatch : Py t unit :=
  (self <- get ;;
   let items := map_to_list (uploaders self) in
   emit (Log INFO "DISPATCH: %s"
           [JArr ((fun '(name, uploader) =>
                     JArr [JStr name; py_len (Uploader.queue uploader)]) <$> items)]) ;;
   for_each items.*1
     (fun name => on_uploader (JStr name) (Uploader.run json_dumps)))%py.

End Methods.

End EventDispatcher.

(** ** [class EventHandler] *)

Module EventHandler.

Section Methods.

Variable json_dumps : json -> string.

(** [render_POST], on the dispatcher the handler holds.  [content] is
    the body as [json.loads] decoded it.  Nothing catches what
    [add_event] raises: the loop ends there, [dispatch] is not called and
    the exception leaves the method. *)
Definition render_POST (content : json) : Py EventDispatcher.t string :=
  (events <- lift (py_iter content) ;;
   for_each events EventDispatcher.add_event ;;
   EventDispatcher.dispatch json_dumps ;;
   ret "OK")%py.

End Methods.

End EventHandler.

(** ** The event loop

    Twisted's reactor runs the methods one at a time: a posted event is
    appended, [dispatch] runs after each intake and on each tick, and the
    [Deferred] of a page request fires once, with [deferred_callback] or
    [deferred_errback], while [self.deferred] still holds it. *)

(** The calls the reactor makes on one uploader. *)
Inductive call : Type :=
| Append (event : json)
| Run
| Callback (response : string)
| Errback (error : string).

(** What [self.events_being_sent] holds, nothing when it is not assigned. *)
Definition sent (u : Uploader.t) : list json :=
  default [] (Uploader.events_being_sent u).

(** The batch of the attempt under way, nothing when there is none. *)
Definition in_flight (u : Uploader.t) : list json :=
  match Uploader.deferred u with
  | Some _ => sent u
  | None => []
  end.

(** An uploader in the loop, with the events whose upload was confirmed:
    [delivered] is not a variable of the program, it collects the batches
    that [deferred_callback] reports as uploaded. *)
Record world : Type := mkWorld {
  uploader : Uploader.t;
  delivered : list json
}.

Definition fresh (name url : string) : world :=
  mkWorld (Uploader.init name url) [].

Section Loop.

Variable json_dumps : json -> string.

(** One call of the reactor.  The reactor fires the [Deferred] of a page
    once, so a callback or an errback comes only while [self.deferred]
    holds it: here one that comes at another time is left out.  The
    methods themselves have no such test; [raw_fire] below runs them as
    they are. *)
Definition fire (w : world) (c : call) : world :=
  let u := uploader w in
  match c with
  | Append event =>
      mkWorld (state_after (Uploader.append event u)) (delivered w)
  | Run =>
      mkWorld (state_after (Uploader.run json_dumps u)) (delivered w)
  | Callback response =>
      match Uploader.deferred u with
      | Some _ =>
          mkWorld (state_after (Uploader.deferred_callback response u))
                  (delivered w ++ sent u)
      | None => w
      end
  | Errback error =>
      match Uploader.deferred u with
      | Some _ =>
          mkWorld (state_after (Uploader.deferred_errback error u)) (delivered w)
      | None => w
      end
  end.

Definition play (w : world) (calls : list call) : world :=
  foldl fire w calls.

(** The calls the reactor makes on the dispatcher: a request comes in
    ([render_POST]), the timer of [main] ticks ([dispatch]), the page of
    the uploader called [name] ends well or fails.  [add_event] alone is
    a call too, so that the states inside [render_POST] are covered. *)
Inductive loop_call : Type :=
| Post (content : json)
| AddEvent (event : json)
| Dispatch
| PageDone (name : string) (response : string)
| PageFailed (name : string) (error : string).

Definition attempt_under_way (d : EventDispatcher.t) (name : string) : bool :=
  match EventDispatcher.uploaders d !! name with
  | Some u => bool_decide (is_Some (Uploader.deferred u))
  | None => false
  end.

Definition loop_fire (d : EventDispatcher.t) (c : loop_call) : EventDispatcher.t :=
  match c with
  | Post content => state_after (EventHandler.render_POST json_dumps content d)
  | AddEvent event => state_after (EventDispatcher.add_event event d)
  | Dispatch => state_after (EventDispatcher.dispatch json_dumps d)
  | PageDone name response =>
      if attempt_under_way d name
      then state_after
             (EventDispatcher.on_uploader (JStr name)
                (Uploader.deferred_callback response) d)
      else d
  | PageFailed name error =>
      if attempt_under_way d name
      then state_after
             (EventDispatcher.on_uploader (JStr name)
                (Uploader.deferred_errback error) d)
      else d
  end.

Definition loop_play (d : EventDispatcher.t) (calls : list loop_call) : EventDispatcher.t :=
  foldl loop_fire d calls.

End Loop.

(** The events appended by a sequence of calls, in order. *)
Definition enqueued (calls : list call) : list json :=
  omap (fun c => match c with Append event => Some event | _ => None end) calls.

(** ** The properties, as predicates *)

(** The request [run] makes for the queue of [u]: one POST to the
    uploader's URL, without headers, whose body is the queue as one JSON
    array. *)
Definition request_of (json_dumps : json -> string) (u : Uploader.t) : Request :=
  mkRequest (Uploader.url u) [] "POST" (json_dumps (JArr (Uploader.queue u))).

(** The invariant of the loop: the events appended so far are, counted
    with repetitions, those of the queue, of the batch under way and of
    the delivered batches. *)
Definition accounted (enq : list json) (w : world) : Prop :=
  Permutation enq
    (Uploader.queue (uploader w) ++ in_flight (uploader w) ++ delivered w).

(** Every enqueued event, as often as it was enqueued, is in one of the
    queue, [events_being_sent] and the delivered events. *)
Definition no_loss_stated (json_dumps : json -> string) (name url : string)
    (calls : list call) : Prop :=
  let w := play json_dumps (fresh name url) calls in
  Permutation (enqueued calls)
    (Uploader.queue (uploader w) ++ sent (uploader w) ++ delivered w).

(** The same with the batch of the attempt under way in the place of
    [events_being_sent]. *)
Definition no_loss (json_dumps : json -> string) (name url : string)
    (calls : list call) : Prop :=
  let w := play json_dumps (fresh name url) calls in
  Permutation (enqueued calls)
    (Uploader.queue (uploader w) ++ in_flight (uploader w) ++ delivered w).

(** No enqueued event is absent from all three. *)
Definition never_absent (json_dumps : json -> string) (name url : string)
    (calls : list call) : Prop :=
  let w := play json_dumps (fresh name url) calls in
  forall event, In event (enqueued calls) ->
    In event (Uploader.queue (uploader w)) \/
    In event (sent (uploader w)) \/
    In event (delivered w).

(** The dispatcher has no uploader called [k]. *)
Definition missing (k : string) (d : EventDispatcher.t) : Prop :=
  EventDispatcher.uploaders d !! k = None.

(** An event without [unique_args], or whose [unique_args] is a
    dictionary without [deployment]. *)
Definition no_deployment_tag (event : json) : Prop :=
  exists fields, event = JObj fields /\
    (fields !! "unique_args" = None \/
     exists args, fields !! "unique_args" = Some (JObj args) /\
                  args !! "deployment" = None).

(** ** The effects of a sequence of calls, and further predicates *)

(** What one call of the reactor on an uploader logs and requests. *)
Definition fire_effects (json_dumps : json -> string) (w : world) (c : call) :
    list effect :=
  let u := uploader w in
  match c with
  | Append event => effects (Uploader.append event u)
  | Run => effects (Uploader.run json_dumps u)
  | Callback response =>
      match Uploader.deferred u with
      | Some _ => effects (Uploader.deferred_callback response u)
      | None => []
      end
  | Errback error =>
      match Uploader.deferred u with
      | Some _ => effects (Uploader.deferred_errback error u)
      | None => []
      end
  end.

Fixpoint play_effects (json_dumps : json -> string) (w : world) (calls : list call) :
    list effect :=
  match calls with
  | [] => []
  | c :: rest =>
      fire_effects json_dumps w c ++ play_effects json_dumps (fire json_dumps w c) rest
  end.

(** The calls that end an attempt. *)
Definition is_completion (c : call) : bool :=
  match c with
  | Callback _ | Errback _ => true
  | Append _ | Run => false
  end.

(** One call as the method takes it, whether the reactor could make it
    or not: the callbacks run without regard to [self.deferred]. *)
Definition raw_fire (json_dumps : json -> string) (w : world) (c : call) : world :=
  let u := uploader w in
  match c with
  | Append event =>
      mkWorld (state_after (Uploader.append event u)) (delivered w)
  | Run =>
      mkWorld (state_after (Uploader.run json_dumps u)) (delivered w)
  | Callback response =>
      mkWorld (state_after (Uploader.deferred_callback response u))
              (delivered w ++ sent u)
  | Errback error =>
      mkWorld (state_after (Uploader.deferred_errback error u)) (delivered w)
  end.

Definition raw_play (json_dumps : json -> string) (w : world) (calls : list call) :
    world :=
  foldl (raw_fire json_dumps) w calls.

(** The sequence is one the reactor can make: each callback and each
    errback comes while an attempt is under way. *)
Fixpoint in_protocol (json_dumps : json -> string) (w : world) (calls : list call) :
    bool :=
  match calls with
  | [] => true
  | c :: rest =>
      (if is_completion c
       then bool_decide (is_Some (Uploader.deferred (uploader w)))
       else true) &&
      in_protocol json_dumps (raw_fire json_dumps w c) rest
  end.

(** The events in the order of their arrival: first the delivered ones,
    then the batch under way, then the queue. *)
Definition in_arrival_order (w : world) : list json :=
  delivered w ++ in_flight (uploader w) ++ Uploader.queue (uploader w).

(** What [self.deferred] and [self.events_being_sent] have to do with
    each other: the request under way is the POST of the batch in
    [events_being_sent], and that batch is not empty. *)
Definition attempt_ok (json_dumps : json -> string) (u : Uploader.t) : Prop :=
  match Uploader.deferred u with
  | Some req =>
      exists batch,
        Uploader.events_being_sent u = Some batch /\
        batch <> [] /\
        req = mkRequest (Uploader.url u) [] "POST" (json_dumps (JArr batch))
  | None => True
  end.

(** What every method keeps, from [u] before to [u'] after: the tie
    between [deferred] and [events_being_sent], the name and the URL. *)
Definition kept (json_dumps : json -> string) (u u' : Uploader.t) : Prop :=
  (attempt_ok json_dumps u -> attempt_ok json_dumps u') /\
  Uploader.name u' = Uploader.name u /\
  Uploader.url u' = Uploader.url u.

(** One for an attempt under way, none otherwise. *)
Definition under_way (u : Uploader.t) : nat :=
  match Uploader.deferred u with Some _ => 1 | None => 0 end.

(** A request of the kind [run] makes: a POST to [url] whose body is a
    batch that is not empty. *)
Definition batch_post (json_dumps : json -> string) (url : string) (req : Request) :
    Prop :=
  exists batch,
    batch <> [] /\ req = mkRequest url [] "POST" (json_dumps (JArr batch)).

(** [run] would send: no attempt under way and a queue that is not empty. *)
Definition ready (u : Uploader.t) : bool :=
  negb (bool_decide (is_Some (Uploader.deferred u)) ||
        (length (Uploader.queue u) =? 0)%nat).

(** An event [add_event] can take: its name is configured and it has the
    two fields that are logged. *)
Definition routable (urls : gmap string string) (event : json) : Prop :=
  exists tag event_type email,
    EventDispatcher.get_uploader_name event = Ok (JStr tag) /\
    is_Some (urls !! tag) /\
    py_getitem event "event" = Ok event_type /\
    py_getitem event "email" = Ok email.

(** Every uploader of the dispatcher has the property [P]. *)
Definition every_uploader (P : Uploader.t -> Prop) (d : EventDispatcher.t) : Prop :=
  forall name u, EventDispatcher.uploaders d !! name = Some u -> P u.

(** The uploaders of [d] are those of the configuration, each under its
    name and with its URL. *)
Definition configured (urls : gmap string string) (d : EventDispatcher.t) : Prop :=
  forall name,
    match EventDispatcher.uploaders d !! name with
    | Some u =>
        Uploader.name u = name /\ urls !! name = Some (Uploader.url u)
    | None => urls !! name = None
    end.

(** What holds of the dispatcher in every state it reaches. *)
Definition sound (json_dumps : json -> string) (urls : gmap string string)
    (d : EventDispatcher.t) : Prop :=
  configured urls d /\ every_uploader (attempt_ok json_dumps) d.

(** ** Sample data

    The scenario of the documentation: one deployment, one event. *)

Definition sample_event (type email deployment : string) : json :=
  JObj (<["event" := JStr type]>
        (<["email" := JStr email]>
         {["unique_args" := JObj {["deployment" := JStr deployment]}]})).

(** An event that names no deployment. *)
Definition untagged_event (type email : string) : json :=
  JObj (<["event" := JStr type]> {["email" := JStr email]}).

Definition sample_urls : gmap string string :=
  {["a" := "http://a.example/hook"]}.

Definition join (sep : string) (parts : list string) : string :=
  match parts with
  | [] => EmptyString
  | part :: rest => foldl (fun acc x => (acc ++ sep ++ x)%string) part rest
  end.

Definition quoted (s : string) : string :=
  let q := String (Ascii.ascii_of_nat 34) EmptyString in (q ++ s ++ q)%string.

(** A serializer with the layout of [json.dumps], for values whose
    strings need no escape; the keys of a dictionary come in the order of
    the map.  It serves to run the definitions on the sample data: the
    theorems below hold for every serializer. *)
Fixpoint plain_dumps (v : json) : string :=
  match v with
  | JNull => "null"
  | JBool true => "true"
  | JBool false => "false"
  | JInt n => pretty n
  | JFloat lit => lit
  | JStr s => quoted s
  | JArr items => ("[" ++ join ", " (map plain_dumps items) ++ "]")%string
  | JObj fields =>
      ("{" ++ join ", "
         (map_fold (fun k x acc => (quoted k ++ ": " ++ plain_dumps x)%string :: acc)
            [] fields) ++ "}")%string
  end.

(** ** The methods of [Uploader], case by case *)

Section UploaderFacts.

Variable json_dumps : json -> string.

Lemma append_eq (event : json) (u : Uploader.t) :
  Uploader.append event u =
  (Ok tt, Uploader.set_queue (Uploader.queue u ++ [event]) u, []).
Proof. reflexivity. Qed.

Lemma run_busy (u : Uploader.t) :
  is_Some (Uploader.deferred u) ->
  Uploader.run json_dumps u = (Ok tt, u, []).
Proof.
  intros Hbusy. unfold Uploader.run, bind, get.
  rewrite bool_decide_eq_true_2 by exact Hbusy. reflexivity.
Qed.

Lemma run_empty (u : Uploader.t) :
  Uploader.queue u = [] ->
  Uploader.run json_dumps u = (Ok tt, u, []).
Proof.
  intros Hq. unfold Uploader.run, bind, get. rewrite Hq. cbn [length Nat.eqb].
  rewrite orb_true_r. reflexivity.
Qed.

Lemma run_sends (u : Uploader.t) :
  Uploader.deferred u = None ->
  Uploader.queue u <> [] ->
  Uploader.run json_dumps u =
  (Ok tt,
   Uploader.mk (Uploader.name u) (Uploader.url u)
     (Some (request_of json_dumps u)) [] (Some (Uploader.queue u)),
   [GetPage (request_of json_dumps u)]).
Proof.
  intros Hd Hq. destruct u as [n a d q b]. cbn in Hd, Hq. subst d.
  destruct q as [|e q]; [congruence|]. reflexivity.
Qed.

(** [run] either does nothing or sends; there is no third case. *)
Lemma run_cases (u : Uploader.t) :
  (is_Some (Uploader.deferred u) \/ Uploader.queue u = []) \/
  (Uploader.deferred u = None /\ Uploader.queue u <> []).
Proof.
  destruct (Uploader.deferred u) as [r|] eqn:Hd.
  - left. left. eauto.
  - destruct (Uploader.queue u) as [|e q] eqn:Hq.
    + left. right. reflexivity.
    + right. split; [reflexivity | discriminate].
Qed.

Lemma callback_eq (response : string) (u : Uploader.t) (batch : list json) :
  Uploader.events_being_sent u = Some batch ->
  Uploader.deferred_callback response u =
  (Ok tt,
   Uploader.mk (Uploader.name u) (Uploader.url u) None (Uploader.queue u) (Some []),
   [Log INFO "Uploaded %d events to %s" [py_len batch; JStr (Uploader.name u)]]).
Proof.
  intros Hb. destruct u as [n a d q b]. cbn in Hb. subst b. reflexivity.
Qed.

Lemma callback_unassigned (response : string) (u : Uploader.t) :
  Uploader.events_being_sent u = None ->
  Uploader.deferred_callback response u =
  (Raise (AttributeError "events_being_sent"), u, []).
Proof.
  intros Hb. destruct u as [n a d q b]. cbn in Hb. subst b. reflexivity.
Qed.

Lemma errback_eq (error : string) (u : Uploader.t) (batch : list json) :
  Uploader.events_being_sent u = Some batch ->
  Uploader.deferred_errback error u =
  (Ok tt,
   Uploader.mk (Uploader.name u) (Uploader.url u) None (batch ++ Uploader.queue u)
     (Some batch),
   [Log ERROR "Could not upload events for %s: %s" [JStr (Uploader.name u); JStr error]]).
Proof.
  intros Hb. destruct u as [n a d q b]. cbn in Hb. subst b. reflexivity.
Qed.

Lemma errback_unassigned (error : string) (u : Uploader.t) :
  Uploader.events_being_sent u = None ->
  Uploader.deferred_errback error u =
  (Raise (AttributeError "events_being_sent"), u,
   [Log ERROR "Could not upload events for %s: %s" [JStr (Uploader.name u); JStr error]]).
Proof.
  intros Hb. destruct u as [n a d q b]. cbn in Hb. subst b. reflexivity.
Qed.

End UploaderFacts.

(** ** [Uploader.run] *)

Section RunClaims.

Variable json_dumps : json -> string.

(** C2, at most one in flight: when an attempt is in flight
    ([self.deferred] is set), [run] returns at once; the uploader is left
    as it was and no page request is made. *)
Theorem run_in_flight_is_noop (u : Uploader.t) :
  is_Some (Uploader.deferred u) ->
  Uploader.run json_dumps u = (Ok tt, u, []) /\
  posts (effects (Uploader.run json_dumps u)) = [].
Proof.
  intros Hbusy. rewrite (run_busy json_dumps u Hbusy). split; reflexivity.
Qed.

(** C8, idempotent empty flush: with an empty queue and no attempt in
    flight, [run] changes nothing and makes no outbound call, however
    often it is called. *)
Theorem run_empty_idle_is_noop (u : Uploader.t) (n : nat) :
  Uploader.deferred u = None ->
  Uploader.queue u = [] ->
  Uploader.run json_dumps u = (Ok tt, u, []) /\
  posts (effects (Uploader.run json_dumps u)) = [] /\
  uploader (play json_dumps (mkWorld u []) (replicate n Run)) = u.
Proof.
  intros _ Hq. rewrite (run_empty json_dumps u Hq).
  split; [reflexivity | split; [reflexivity |]].
  induction n as [|n IH]; [reflexivity|].
  cbn [replicate play foldl fire uploader delivered].
  rewrite (run_empty json_dumps u Hq). exact IH.
Qed.

(** C5: with a queue that is not empty and no attempt in flight, [run]
    moves the whole queue into [events_being_sent], leaves the queue
    empty, and makes exactly one page request: a POST to the uploader's
    URL whose body is [json.dumps] of the former queue as one list; its
    [Deferred] is kept in [self.deferred]. *)
Theorem run_moves_queue_and_posts_once (u : Uploader.t) :
  Uploader.deferred u = None ->
  Uploader.queue u <> [] ->
  let r := Uploader.run json_dumps u in
  let u' := state_after r in
  outcome r = Ok tt /\
  Uploader.events_being_sent u' = Some (Uploader.queue u) /\
  Uploader.queue u' = [] /\
  posts (effects r) = [request_of json_dumps u] /\
  Uploader.deferred u' = Some (request_of json_dumps u) /\
  req_url (request_of json_dumps u) = Uploader.url u /\
  req_method (request_of json_dumps u) = "POST" /\
  req_postdata (request_of json_dumps u) = json_dumps (JArr (Uploader.queue u)).
Proof.
  intros Hd Hq r u'. subst r u'. rewrite (run_sends json_dumps u Hd Hq).
  repeat split.
Qed.

(** C9: whatever [events_being_sent] held before, a page request made by
    [run] is the only one of that call, its body is [json.dumps] of the
    queue as it was when [run] started, and [events_being_sent] is
    overwritten with that queue. *)
Theorem run_posts_exactly_the_queue (u : Uploader.t) (req : Request) :
  In req (posts (effects (Uploader.run json_dumps u))) ->
  posts (effects (Uploader.run json_dumps u)) = [req] /\
  req = request_of json_dumps u /\
  req_postdata req = json_dumps (JArr (Uploader.queue u)) /\
  Uploader.events_being_sent (state_after (Uploader.run json_dumps u)) =
    Some (Uploader.queue u) /\
  Uploader.queue (state_after (Uploader.run json_dumps u)) = [].
Proof.
  destruct (run_cases u) as [[Hbusy | Hq] | [Hd Hq]].
  - rewrite (run_busy json_dumps u Hbusy). intros [].
  - rewrite (run_empty json_dumps u Hq). intros [].
  - rewrite (run_sends json_dumps u Hd Hq). cbn.
    intros [<- | []]. repeat split.
Qed.

End RunClaims.

(** ** Failure, retry and the no-loss invariant *)

Section RetryClaims.

Variable json_dumps : json -> string.

Lemma fire_accounted (enq : list json) (w : world) (c : call) :
  accounted enq w ->
  accounted (enq ++ enqueued [c]) (fire json_dumps w c).
Proof.
  unfold accounted. destruct w as [u d]. cbn [uploader delivered]. intros Hinv.
  destruct c as [event | | response | error];
    change (enqueued [Append event]) with [event] ||
    (change (enqueued [_]) with (@nil json); rewrite app_nil_r);
    cbn [fire uploader delivered].
  - (* append *)
    rewrite append_eq. cbn. unfold in_flight, sent in *. cbn.
    rewrite Hinv, <- !app_assoc. apply Permutation_app_head.
    rewrite (app_assoc _ d [event]). apply Permutation_app_comm.
  - (* run *)
    destruct (run_cases u) as [[Hbusy | Hq] | [Hd Hq]].
    + rewrite (run_busy json_dumps u Hbusy). exact Hinv.
    + rewrite (run_empty json_dumps u Hq). exact Hinv.
    + rewrite (run_sends json_dumps u Hd Hq). cbn.
      unfold in_flight in *. rewrite Hd in Hinv. cbn in *. exact Hinv.
  - (* callback *)
    unfold in_flight in *. destruct (Uploader.deferred u) as [req|] eqn:Hd;
      [|cbn [uploader delivered]; rewrite Hd; exact Hinv].
    destruct (Uploader.events_being_sent u) as [batch|] eqn:Hb.
    + rewrite (callback_eq response u batch Hb). cbn.
      unfold sent in *. rewrite Hb in *. cbn in *.
      rewrite Hinv. apply Permutation_app_head. apply Permutation_app_comm.
    + rewrite (callback_unassigned response u Hb). cbn. rewrite Hd.
      unfold sent in *. rewrite Hb in *. cbn in *. rewrite app_nil_r. exact Hinv.
  - (* errback *)
    unfold in_flight in *. destruct (Uploader.deferred u) as [req|] eqn:Hd;
      [|cbn [uploader delivered]; rewrite Hd; exact Hinv].
    destruct (Uploader.events_being_sent u) as [batch|] eqn:Hb.
    + rewrite (errback_eq error u batch Hb). cbn.
      unfold sent in *. rewrite Hb in *. cbn in *.
      rewrite Hinv, !app_assoc. apply Permutation_app_tail.
      apply Permutation_app_comm.
    + rewrite (errback_unassigned error u Hb). cbn. rewrite Hd.
      unfold sent in *. rewrite Hb in *. exact Hinv.
Qed.

Lemma enqueued_cons (c : call) (calls : list call) :
  enqueued (c :: calls) = enqueued [c] ++ enqueued calls.
Proof. destruct c; reflexivity. Qed.

Lemma play_accounted (calls : list call) (enq : list json) (w : world) :
  accounted enq w ->
  accounted (enq ++ enqueued calls) (play json_dumps w calls).
Proof.
  revert enq w. induction calls as [|c calls IH]; intros enq w Hinv.
  - cbn. rewrite app_nil_r. exact Hinv.
  - rewrite enqueued_cons, app_assoc. cbn [play foldl].
    apply IH. apply fire_accounted. exact Hinv.
Qed.

Lemma in_flight_sent (u : Uploader.t) (event : json) :
  In event (in_flight u) -> In event (sent u).
Proof. unfold in_flight. destruct (Uploader.deferred u); [trivial | intros []]. Qed.

(** What does hold over the calls of the reactor ([play] leaves out a
    callback that comes with no attempt under way): the events appended
    to a fresh uploader are, each as often as it was appended, those of
    the queue, of the batch of the attempt in flight and of the delivered
    batches together; and none is absent from all of the queue,
    [events_being_sent] and the delivered events. *)
Lemma no_loss_in_flight (name url : string) (calls : list call) :
  no_loss json_dumps name url calls /\
  never_absent json_dumps name url calls.
Proof.
  assert (Hacc : no_loss json_dumps name url calls).
  { unfold no_loss. apply (play_accounted calls [] (fresh name url)).
    unfold accounted. reflexivity. }
  split; [exact Hacc|].
  unfold never_absent, no_loss in *. intros event Hin.
  apply (Permutation_in _ Hacc) in Hin.
  apply in_app_or in Hin as [Hq | Hin]; [left; exact Hq|].
  apply in_app_or in Hin as [Hf | Hd]; [|right; right; exact Hd].
  right; left. apply in_flight_sent. exact Hf.
Qed.

(** When the appended events are all different, the three places are
    disjoint: an event is in one of them only. *)
Lemma no_loss_exactly_one (name url : string) (calls : list call) (event : json) :
  List.NoDup (enqueued calls) ->
  In event (enqueued calls) ->
  let w := play json_dumps (fresh name url) calls in
  let q := Uploader.queue (uploader w) in
  let f := in_flight (uploader w) in
  let d := delivered w in
  (In event q /\ ~ In event f /\ ~ In event d) \/
  (~ In event q /\ In event f /\ ~ In event d) \/
  (~ In event q /\ ~ In event f /\ In event d).
Proof.
  intros Hnd Hin w q f d.
  destruct (no_loss_in_flight name url calls) as [Hacc _].
  unfold no_loss in Hacc. fold w in Hacc. fold q f d in Hacc.
  assert (Hnd' : List.NoDup (q ++ f ++ d)) by (eapply Permutation_NoDup; eassumption).
  apply (Permutation_in _ Hacc) in Hin.
  apply NoDup_ListNoDup in Hnd'.
  apply NoDup_app in Hnd' as (_ & Hqfd & Hfd).
  apply NoDup_app in Hfd as (_ & Hfd & _).
  setoid_rewrite <- list_elem_of_In.
  apply in_app_or in Hin as [Hq | Hin].
  - apply list_elem_of_In in Hq. left. split; [exact Hq|].
    specialize (Hqfd _ Hq). rewrite elem_of_app in Hqfd. tauto.
  - apply in_app_or in Hin as [Hf | Hd]; right.
    + apply list_elem_of_In in Hf. left. repeat split; [|exact Hf|].
      * intros Hq. apply (Hqfd _ Hq). apply elem_of_app. left. exact Hf.
      * apply Hfd. exact Hf.
    + apply list_elem_of_In in Hd. right. repeat split; [| |exact Hd].
      * intros Hq. apply (Hqfd _ Hq). apply elem_of_app. right. exact Hd.
      * intros Hf. apply (Hfd _ Hf). exact Hd.
Qed.

End RetryClaims.

Section FailureClaims.

Variable json_dumps : json -> string.

(** C3, retry ordering: on an idle uploader with an empty queue, after
    [append(A)], [append(B)], a [run] (which posts [[A, B]]), the failure
    of that attempt, and [append(C)], the next [run] posts [[A, B, C]] in
    that order.  In general [deferred_errback] puts the failed batch, in
    its order, in front of what the queue holds by then. *)
Theorem retry_ordering (u : Uploader.t) (A B C : json) (error : string) :
  Uploader.deferred u = None ->
  Uploader.queue u = [] ->
  let w1 := play json_dumps (mkWorld u []) [Append A; Append B] in
  let w2 := play json_dumps w1 [Run; Errback error; Append C] in
  posts (effects (Uploader.run json_dumps (uploader w1))) =
    [mkRequest (Uploader.url u) [] "POST" (json_dumps (JArr [A; B]))] /\
  Uploader.queue (uploader w2) = [A; B; C] /\
  posts (effects (Uploader.run json_dumps (uploader w2))) =
    [mkRequest (Uploader.url u) [] "POST" (json_dumps (JArr [A; B; C]))] /\
  (forall (v : Uploader.t) (batch : list json),
     Uploader.events_being_sent v = Some batch ->
     Uploader.queue (state_after (Uploader.deferred_errback error v)) =
       batch ++ Uploader.queue v).
Proof.
  intros Hd Hq. destruct u as [n a d q b]. cbn in Hd, Hq. subst d q.
  repeat split.
  intros v batch Hb. rewrite (errback_eq error v batch Hb). reflexivity.
Qed.

(** C4, as the code has it: [deferred_errback] does not empty
    [events_being_sent].  After [append(A)], [run] and the failure of the
    attempt, the batch is back in the queue, no attempt is in flight, and
    [events_being_sent] still holds the batch. *)
Theorem errback_keeps_events_being_sent (name url : string) (A : json) (error : string) :
  let w := play json_dumps (fresh name url) [Append A; Run; Errback error] in
  Uploader.events_being_sent (uploader w) = Some [A] /\
  Uploader.queue (uploader w) = [A] /\
  Uploader.deferred (uploader w) = None.
Proof. repeat split. Qed.

End FailureClaims.

(** C1, as the code has it: [deferred_errback] puts the failed batch
    back into the queue and leaves it in [events_being_sent] too.  After
    [append(A)], [run] and the failure of the attempt, [A] is in both, so
    that the events appended are not, each once, those of the queue,
    [events_being_sent] and the delivered events. *)
Theorem no_loss_broken_after_failure (json_dumps : json -> string) (name url : string)
    (A : json) (error : string) :
  let calls := [Append A; Run; Errback error] in
  let w := play json_dumps (fresh name url) calls in
  In A (Uploader.queue (uploader w)) /\
  In A (sent (uploader w)) /\
  delivered w = [] /\
  ~ no_loss_stated json_dumps name url calls.
Proof.
  cbn zeta. split; [left; reflexivity|]. split; [left; reflexivity|].
  split; [reflexivity|].
  unfold no_loss_stated. intros Hperm.
  apply Permutation_length in Hperm. discriminate Hperm.
Qed.

(** The same on the sample data. *)
Lemma no_loss_stated_fails :
  ~ no_loss_stated plain_dumps "a" "http://a.example/hook"
      [Append (sample_event "open" "x@y.com" "a"); Run; Errback "ConnectionRefusedError()"].
Proof.
  unfold no_loss_stated. intros Hperm.
  apply Permutation_length in Hperm. vm_compute in Hperm. discriminate Hperm.
Qed.


(** ** The dispatcher: routing and missing uploaders *)

Lemma bind_state {St A B} (P : St -> Prop) (m : Py St A) (f : A -> Py St B) (s : St) :
  P (state_after (m s)) ->
  (forall a s1, P s1 -> P (state_after (f a s1))) ->
  P (state_after (bind m f s)).
Proof.
  unfold bind, state_after. destruct (m s) as [[[a | e] s1] o1]; cbn.
  - intros H1 Hf. specialize (Hf a s1 H1).
    destruct (f a s1) as [[r s2] o2]. exact Hf.
  - intros H1 _. exact H1.
Qed.

Lemma for_each_state {St A} (P : St -> Prop) (items : list A) (body : A -> Py St unit) :
  (forall x s, In x items -> P s -> P (state_after (body x s))) ->
  forall s, P s -> P (state_after (for_each items body s)).
Proof.
  induction items as [|x items IH]; intros Hbody s Hs; [exact Hs|].
  cbn [for_each]. apply bind_state.
  - apply Hbody; [left; reflexivity | exact Hs].
  - intros _ s1 Hs1. apply IH; [|exact Hs1].
    intros y s2 Hy. apply Hbody. right. exact Hy.
Qed.

Section DispatcherFacts.

Variable json_dumps : json -> string.

(** No method run through [on_uploader] adds a key to [uploaders]. *)
Lemma on_uploader_keeps_missing {A} (name : json) (m : Py Uploader.t A)
    (d : EventDispatcher.t) (k : string) :
  EventDispatcher.uploaders d !! k = None ->
  EventDispatcher.uploaders (state_after (EventDispatcher.on_uploader name m d)) !! k = None.
Proof.
  intros Hk. unfold EventDispatcher.on_uploader.
  destruct name as [| | | |key| |]; try exact Hk.
  destruct (EventDispatcher.uploaders d !! key) as [u|] eqn:Hkey; [|exact Hk].
  destruct (m u) as [[r u'] out]. cbn.
  rewrite lookup_insert_ne; [exact Hk|]. intros ->. congruence.
Qed.

Lemma add_event_keeps_missing (event : json) (d : EventDispatcher.t) (k : string) :
  EventDispatcher.uploaders d !! k = None ->
  EventDispatcher.uploaders (state_after (EventDispatcher.add_event event d)) !! k = None.
Proof.
  intros Hk. unfold EventDispatcher.add_event.
  apply (bind_state (missing k)); [exact Hk|]. intros name s1 Hk1.
  apply (bind_state (missing k)); [exact Hk1|]. intros event_type s2 Hk2.
  apply (bind_state (missing k)); [exact Hk2|]. intros email s3 Hk3.
  apply (bind_state (missing k)); [exact Hk3|]. intros _ s4 Hk4.
  apply on_uploader_keeps_missing. exact Hk4.
Qed.

Lemma dispatch_keeps_missing (d : EventDispatcher.t) (k : string) :
  EventDispatcher.uploaders d !! k = None ->
  EventDispatcher.uploaders (state_after (EventDispatcher.dispatch json_dumps d)) !! k = None.
Proof.
  intros Hk. unfold EventDispatcher.dispatch.
  apply (bind_state (missing k)); [exact Hk|]. intros self s1 Hk1.
  apply (bind_state (missing k)); [exact Hk1|]. intros _ s2 Hk2.
  apply (for_each_state (missing k)); [|exact Hk2].
  intros name s3 _ Hk3. apply on_uploader_keeps_missing. exact Hk3.
Qed.

Lemma render_POST_keeps_missing (content : json) (d : EventDispatcher.t) (k : string) :
  EventDispatcher.uploaders d !! k = None ->
  EventDispatcher.uploaders
    (state_after (EventHandler.render_POST json_dumps content d)) !! k = None.
Proof.
  intros Hk. unfold EventHandler.render_POST.
  apply (bind_state (missing k)); [exact Hk|]. intros events s1 Hk1.
  apply (bind_state (missing k)).
  - apply (for_each_state (missing k)); [|exact Hk1].
    intros event s2 _ Hk2. apply add_event_keeps_missing. exact Hk2.
  - intros _ s2 Hk2.
    apply (bind_state (missing k)); [apply dispatch_keeps_missing; exact Hk2|].
    intros _ s3 Hk3. exact Hk3.
Qed.

Lemma loop_fire_keeps_missing (d : EventDispatcher.t) (c : loop_call) (k : string) :
  EventDispatcher.uploaders d !! k = None ->
  EventDispatcher.uploaders (loop_fire json_dumps d c) !! k = None.
Proof.
  intros Hk.
  destruct c as [content | event | | name response | name error]; cbn [loop_fire].
  - apply render_POST_keeps_missing. exact Hk.
  - apply add_event_keeps_missing. exact Hk.
  - apply dispatch_keeps_missing. exact Hk.
  - destruct (attempt_under_way d name); [|exact Hk].
    apply on_uploader_keeps_missing. exact Hk.
  - destruct (attempt_under_way d name); [|exact Hk].
    apply on_uploader_keeps_missing. exact Hk.
Qed.

Lemma loop_play_keeps_missing (calls : list loop_call) (d : EventDispatcher.t) (k : string) :
  EventDispatcher.uploaders d !! k = None ->
  EventDispatcher.uploaders (loop_play json_dumps d calls) !! k = None.
Proof.
  revert d. induction calls as [|c calls IH]; intros d Hk; [exact Hk|].
  cbn [loop_play foldl]. apply IH. apply loop_fire_keeps_missing. exact Hk.
Qed.

(** [EventDispatcher()] makes an uploader for the configured names only. *)
Lemma create_missing (urls : gmap string string) (k : string) :
  urls !! k = None ->
  EventDispatcher.uploaders (EventDispatcher.create urls) !! k = None.
Proof.
  intros Hk. unfold EventDispatcher.create, EventDispatcher.init.
  apply (bind_state (missing k)); [apply lookup_empty|]. intros _ s1 Hk1.
  apply (bind_state (missing k)).
  - apply (for_each_state (missing k)); [|exact Hk1].
    intros [name url] s2 Hin Hk2. unfold missing in *. cbn.
    rewrite lookup_insert_ne; [exact Hk2|]. intros ->.
    apply list_elem_of_In, elem_of_map_to_list in Hin. congruence.
  - intros _ s2 Hk2.
    apply (bind_state (missing k)); [exact Hk2|].
    intros self s3 Hk3. exact Hk3.
Qed.

Lemma reachable_missing (urls : gmap string string) (calls : list loop_call) (k : string) :
  urls !! k = None ->
  EventDispatcher.uploaders
    (loop_play json_dumps (EventDispatcher.create urls) calls) !! k = None.
Proof. intros Hk. apply loop_play_keeps_missing, create_missing, Hk. Qed.

End DispatcherFacts.

Lemma get_uploader_name_dict (event name : json) :
  EventDispatcher.get_uploader_name event = Ok name ->
  exists fields, event = JObj fields.
Proof.
  destruct event; cbn; try discriminate. intros _. eauto.
Qed.

(** [add_event] for a name that has no uploader: a [KeyError], from one
    of the three subscripts of the method, and a dispatcher left as it
    was; the [KeyError] is that of the name when the event has the two
    fields that are logged. *)
Lemma add_event_missing (d : EventDispatcher.t) (event : json) (tag : string) :
  EventDispatcher.get_uploader_name event = Ok (JStr tag) ->
  EventDispatcher.uploaders d !! tag = None ->
  is_lookup_failure (outcome (EventDispatcher.add_event event d)) /\
  state_after (EventDispatcher.add_event event d) = d /\
  posts (effects (EventDispatcher.add_event event d)) = [] /\
  (forall event_type email,
     py_getitem event "event" = Ok event_type ->
     py_getitem event "email" = Ok email ->
     outcome (EventDispatcher.add_event event d) = Raise (KeyError (JStr tag))).
Proof.
  intros Hname Hmiss.
  destruct (get_uploader_name_dict _ _ Hname) as [fields ->].
  unfold EventDispatcher.add_event, bind, lift. rewrite Hname.
  cbn [py_getitem].
  destruct (fields !! "event") as [event_type|];
    [|repeat split; intros ? ? [=]].
  destruct (fields !! "email") as [email|];
    [|repeat split; intros ? ? _ [=]].
  cbn. rewrite Hmiss. repeat split.
Qed.

(** A request whose first event has no uploader: the [KeyError] of
    [add_event] leaves [render_POST], and nothing was changed or sent. *)
Lemma render_POST_missing (json_dumps : json -> string) (d : EventDispatcher.t)
    (event : json) (rest : list json) (tag : string) :
  EventDispatcher.get_uploader_name event = Ok (JStr tag) ->
  EventDispatcher.uploaders d !! tag = None ->
  is_lookup_failure
    (outcome (EventHandler.render_POST json_dumps (JArr (event :: rest)) d)) /\
  state_after (EventHandler.render_POST json_dumps (JArr (event :: rest)) d) = d.
Proof.
  intros Hname Hmiss.
  destruct (add_event_missing d event tag Hname Hmiss) as (Hfail & Hstate & _ & _).
  unfold EventHandler.render_POST, bind, lift. cbn [py_iter for_each]. unfold bind.
  unfold outcome, state_after in *.
  destruct (EventDispatcher.add_event event d) as [[[[] | e] s1] o1]; cbn in *;
    [contradiction|].
  split; assumption.
Qed.

Lemma untagged_resolves_to_default (event : json) :
  no_deployment_tag event ->
  EventDispatcher.get_uploader_name event = Ok (JStr "DEFAULT").
Proof.
  intros (fields & -> & [Hnone | (args & Hargs & Hdep)]);
    unfold EventDispatcher.get_uploader_name; cbn [py_get].
  - rewrite Hnone. cbn. rewrite lookup_empty. reflexivity.
  - rewrite Hargs. cbn. rewrite Hdep. reflexivity.
Qed.

Section RoutingClaims.

Variable json_dumps : json -> string.

(** C6, default routing: for an event without [unique_args], or whose
    [unique_args] is a dictionary without [deployment],
    [get_uploader_name] gives ['DEFAULT']. *)
Theorem default_routing (event : json) :
  no_deployment_tag event ->
  EventDispatcher.get_uploader_name event = Ok (JStr "DEFAULT").
Proof. apply untagged_resolves_to_default. Qed.

(** C7, routing error: in any state the dispatcher built from the
    configured names can reach, [add_event] on an event whose name is not
    configured raises a [KeyError]; the dispatcher is left as it was (the
    event is in no queue) and no page request is made.  When the event
    has the fields [event] and [email], the [KeyError] is that of the
    name.  Nothing handles it: a [render_POST] that meets such an event
    first raises the [KeyError] too. *)
Theorem add_event_unconfigured_raises (urls : gmap string string)
    (calls : list loop_call) (event : json) (tag : string) :
  EventDispatcher.get_uploader_name event = Ok (JStr tag) ->
  urls !! tag = None ->
  let d := loop_play json_dumps (EventDispatcher.create urls) calls in
  is_lookup_failure (outcome (EventDispatcher.add_event event d)) /\
  state_after (EventDispatcher.add_event event d) = d /\
  posts (effects (EventDispatcher.add_event event d)) = [] /\
  (forall event_type email,
     py_getitem event "event" = Ok event_type ->
     py_getitem event "email" = Ok email ->
     outcome (EventDispatcher.add_event event d) = Raise (KeyError (JStr tag))) /\
  (forall rest,
     is_lookup_failure
       (outcome (EventHandler.render_POST json_dumps (JArr (event :: rest)) d)) /\
     state_after (EventHandler.render_POST json_dumps (JArr (event :: rest)) d) = d).
Proof.
  intros Hname Hmiss d.
  assert (Hd : EventDispatcher.uploaders d !! tag = None)
    by (apply reachable_missing; exact Hmiss).
  destruct (add_event_missing d event tag Hname Hd) as (H1 & H2 & H3 & H4).
  repeat split; try assumption;
    apply (render_POST_missing json_dumps d event rest tag Hname Hd).
Qed.

(** C10: ['DEFAULT'] is a name like any other.  When the configuration
    has no key ['DEFAULT'], [add_event] on an event that names no
    deployment raises a [KeyError] in any state the dispatcher can reach,
    and leaves the dispatcher as it was; when the event has the fields
    [event] and [email], it is the [KeyError] of ['DEFAULT']. *)
Theorem default_is_not_a_catch_all (urls : gmap string string)
    (calls : list loop_call) (event : json) :
  urls !! "DEFAULT" = None ->
  no_deployment_tag event ->
  let d := loop_play json_dumps (EventDispatcher.create urls) calls in
  is_lookup_failure (outcome (EventDispatcher.add_event event d)) /\
  state_after (EventDispatcher.add_event event d) = d /\
  (forall event_type email,
     py_getitem event "event" = Ok event_type ->
     py_getitem event "email" = Ok email ->
     outcome (EventDispatcher.add_event event d) = Raise (KeyError (JStr "DEFAULT"))).
Proof.
  intros Hmiss Htag d.
  destruct (add_event_missing d event "DEFAULT") as (H1 & H2 & _ & H4).
  - apply untagged_resolves_to_default. exact Htag.
  - apply reachable_missing. exact Hmiss.
  - repeat split; assumption.
Qed.

End RoutingClaims.

(** ** The theorems on the sample data *)

(** The documented scenario: the request is answered [OK], the event
    leaves in one POST to the deployment's URL, and when that attempt
    fails the same batch is back at the front of the queue. *)
Example documented_scenario :
  let event := sample_event "open" "x@y.com" "a" in
  let r := EventHandler.render_POST plain_dumps (JArr [event])
             (EventDispatcher.create sample_urls) in
  let d := loop_fire plain_dumps (state_after r) (PageFailed "a" "TimeoutError()") in
  outcome r = Ok "OK" /\
  posts (effects r) =
    [mkRequest "http://a.example/hook" [] "POST" (plain_dumps (JArr [event]))] /\
  Uploader.queue <$> EventDispatcher.uploaders d !! "a" = Some [event].
Proof. vm_compute. repeat split. Qed.

Lemma retry_ordering_witness :
  posts (effects (Uploader.run plain_dumps
    (uploader (play plain_dumps (fresh "a" "http://a.example/hook")
       [Append (sample_event "open" "x@y.com" "a");
        Append (sample_event "click" "x@y.com" "a");
        Run; Errback "err";
        Append (sample_event "bounce" "z@y.com" "a")])))) =
  [mkRequest "http://a.example/hook" [] "POST"
     (plain_dumps (JArr [sample_event "open" "x@y.com" "a";
                         sample_event "click" "x@y.com" "a";
                         sample_event "bounce" "z@y.com" "a"]))].
Proof.
  exact (proj1 (proj2 (proj2
    (retry_ordering plain_dumps (Uploader.init "a" "http://a.example/hook")
       (sample_event "open" "x@y.com" "a")
       (sample_event "click" "x@y.com" "a")
       (sample_event "bounce" "z@y.com" "a") "err" eq_refl eq_refl)))).
Defined.

Lemma run_in_flight_is_noop_witness :
  posts (effects (Uploader.run plain_dumps
    (uploader (play plain_dumps (fresh "a" "http://a.example/hook")
       [Append (sample_event "open" "x@y.com" "a"); Run;
        Append (sample_event "click" "x@y.com" "a")])))) = [].
Proof.
  apply (run_in_flight_is_noop plain_dumps). vm_compute. eauto.
Defined.

Lemma run_empty_idle_is_noop_witness :
  uploader (play plain_dumps (fresh "a" "http://a.example/hook") (replicate 3 Run)) =
  Uploader.init "a" "http://a.example/hook".
Proof.
  apply (run_empty_idle_is_noop plain_dumps (Uploader.init "a" "http://a.example/hook") 3);
    reflexivity.
Defined.

Lemma run_moves_queue_and_posts_once_witness :
  posts (effects (Uploader.run plain_dumps
    (uploader (play plain_dumps (fresh "a" "http://a.example/hook")
       [Append (sample_event "open" "x@y.com" "a")])))) =
  [mkRequest "http://a.example/hook" [] "POST"
     (plain_dumps (JArr [sample_event "open" "x@y.com" "a"]))].
Proof.
  apply (run_moves_queue_and_posts_once plain_dumps
           (uploader (play plain_dumps (fresh "a" "http://a.example/hook")
              [Append (sample_event "open" "x@y.com" "a")])));
    [reflexivity | discriminate].
Defined.

Lemma run_posts_exactly_the_queue_witness :
  Uploader.events_being_sent
    (state_after (Uploader.run plain_dumps
       (uploader (play plain_dumps (fresh "a" "http://a.example/hook")
          [Append (sample_event "open" "x@y.com" "a"); Run; Errback "err";
           Append (sample_event "click" "x@y.com" "a")])))) =
  Some [sample_event "open" "x@y.com" "a"; sample_event "click" "x@y.com" "a"].
Proof.
  apply (run_posts_exactly_the_queue plain_dumps
           (uploader (play plain_dumps (fresh "a" "http://a.example/hook")
              [Append (sample_event "open" "x@y.com" "a"); Run; Errback "err";
               Append (sample_event "click" "x@y.com" "a")]))
           (mkRequest "http://a.example/hook" [] "POST"
              (plain_dumps (JArr [sample_event "open" "x@y.com" "a";
                                  sample_event "click" "x@y.com" "a"])))).
  left. reflexivity.
Defined.

Lemma default_routing_witness :
  EventDispatcher.get_uploader_name (untagged_event "open" "x@y.com") =
  Ok (JStr "DEFAULT").
Proof.
  apply default_routing. eexists. split; [reflexivity|]. left. reflexivity.
Defined.

Lemma add_event_unconfigured_raises_witness :
  outcome (EventDispatcher.add_event (sample_event "open" "x@y.com" "b")
    (loop_play plain_dumps (EventDispatcher.create sample_urls)
       [Post (JArr [sample_event "open" "x@y.com" "a"])])) =
  Raise (KeyError (JStr "b")).
Proof.
  eapply (add_event_unconfigured_raises plain_dumps sample_urls
            [Post (JArr [sample_event "open" "x@y.com" "a"])]
            (sample_event "open" "x@y.com" "b") "b");
    reflexivity.
Defined.

Lemma default_is_not_a_catch_all_witness :
  outcome (EventDispatcher.add_event (untagged_event "open" "x@y.com")
    (loop_play plain_dumps (EventDispatcher.create sample_urls)
       [AddEvent (sample_event "open" "x@y.com" "a"); Dispatch])) =
  Raise (KeyError (JStr "DEFAULT")).
Proof.
  eapply (default_is_not_a_catch_all plain_dumps sample_urls
            [AddEvent (sample_event "open" "x@y.com" "a"); Dispatch]
            (untagged_event "open" "x@y.com"));
    [reflexivity
    | eexists; split; [reflexivity | left; reflexivity]
    | reflexivity
    | reflexivity].
Defined.

(** ** More on one uploader: order, attempts, requests *)

Section UploaderOrder.

Variable json_dumps : json -> string.

Lemma fire_in_arrival_order (enq : list json) (w : world) (c : call) :
  enq = in_arrival_order w ->
  enq ++ enqueued [c] = in_arrival_order (fire json_dumps w c).
Proof.
  unfold in_arrival_order. destruct w as [u d]. cbn [uploader delivered].
  intros ->.
  destruct c as [event | | response | error];
    change (enqueued [Append event]) with [event] ||
    (change (enqueued [_]) with (@nil json); rewrite app_nil_r);
    cbn [fire uploader delivered].
  - rewrite append_eq. cbn. unfold in_flight, sent. cbn.
    rewrite <- !app_assoc. reflexivity.
  - destruct (run_cases u) as [[Hbusy | Hq] | [Hd Hq]].
    + rewrite (run_busy json_dumps u Hbusy). reflexivity.
    + rewrite (run_empty json_dumps u Hq). reflexivity.
    + rewrite (run_sends json_dumps u Hd Hq). cbn.
      unfold in_flight. rewrite Hd. cbn. rewrite app_nil_r. reflexivity.
  - unfold in_flight. destruct (Uploader.deferred u) as [req|] eqn:Hd;
      [|cbn [uploader delivered]; rewrite Hd; reflexivity].
    destruct (Uploader.events_being_sent u) as [batch|] eqn:Hb.
    + rewrite (callback_eq response u batch Hb). cbn.
      unfold sent. rewrite Hb. cbn. rewrite <- app_assoc. reflexivity.
    + rewrite (callback_unassigned response u Hb). cbn. rewrite Hd.
      unfold sent. rewrite Hb. cbn. rewrite app_nil_r. reflexivity.
  - unfold in_flight. destruct (Uploader.deferred u) as [req|] eqn:Hd;
      [|cbn [uploader delivered]; rewrite Hd; reflexivity].
    destruct (Uploader.events_being_sent u) as [batch|] eqn:Hb.
    + rewrite (errback_eq error u batch Hb). cbn.
      unfold sent. rewrite Hb. reflexivity.
    + rewrite (errback_unassigned error u Hb). cbn. rewrite Hd. reflexivity.
Qed.

Lemma play_in_arrival_order (calls : list call) (enq : list json) (w : world) :
  enq = in_arrival_order w ->
  enq ++ enqueued calls = in_arrival_order (play json_dumps w calls).
Proof.
  revert enq w. induction calls as [|c calls IH]; intros enq w Hinv.
  - cbn. rewrite app_nil_r. exact Hinv.
  - rewrite enqueued_cons, app_assoc. cbn [play foldl].
    apply IH. apply fire_in_arrival_order. exact Hinv.
Qed.

(** A call the reactor can make is the method as it is. *)
Lemma raw_fire_fire (w : world) (c : call) :
  (is_completion c = true -> is_Some (Uploader.deferred (uploader w))) ->
  raw_fire json_dumps w c = fire json_dumps w c.
Proof.
  intros Hc. destruct c as [event | | response | error]; try reflexivity;
    destruct (Hc eq_refl) as [req Hreq]; cbn [raw_fire fire]; rewrite Hreq;
    reflexivity.
Qed.

Lemma raw_play_play (calls : list call) (w : world) :
  in_protocol json_dumps w calls = true ->
  raw_play json_dumps w calls = play json_dumps w calls.
Proof.
  revert w. induction calls as [|c calls IH]; intros w Hcalls; [reflexivity|].
  cbn [in_protocol] in Hcalls. apply andb_prop in Hcalls as [Hc Hcalls].
  cbn [raw_play play foldl].
  change (foldl (raw_fire json_dumps)) with (raw_play json_dumps).
  change (foldl (fire json_dumps)) with (play json_dumps).
  assert (Heq : raw_fire json_dumps w c = fire json_dumps w c).
  { apply raw_fire_fire. intros Hcomp. rewrite Hcomp in Hc.
    apply bool_decide_eq_true_1 in Hc. exact Hc. }
  rewrite <- Heq. apply IH. exact Hcalls.
Qed.

(** X1, first in, first out: the methods are run as they are, on a
    fresh uploader, in any sequence in which each [deferred_callback] and
    each [deferred_errback] comes while an attempt is under way.  Then the
    appended events, in the order of their arrival, are the delivered
    events, then the batch under way, then the queue: a retry reorders
    nothing, and what was delivered is a prefix of what arrived. *)
Theorem fifo_in_protocol (name url : string) (calls : list call) :
  in_protocol json_dumps (fresh name url) calls = true ->
  enqueued calls = in_arrival_order (raw_play json_dumps (fresh name url) calls).
Proof.
  intros Hcalls. rewrite (raw_play_play calls (fresh name url) Hcalls).
  apply (play_in_arrival_order calls [] (fresh name url)). reflexivity.
Qed.

(** The condition is needed: an errback that comes twice for one attempt
    puts the batch into the queue twice. *)
Example errback_twice_duplicates (name url : string) (A : json) (error : string) :
  Uploader.queue
    (uploader (raw_play json_dumps (fresh name url)
                 [Append A; Run; Errback error; Errback error])) = [A; A].
Proof. reflexivity. Qed.

End UploaderOrder.

Section UploaderAttempts.

Variable json_dumps : json -> string.

Lemma append_kept (event : json) (u : Uploader.t) :
  kept json_dumps u (state_after (Uploader.append event u)).
Proof. rewrite append_eq. destruct u. repeat split. intros H. exact H. Qed.

Lemma run_kept (u : Uploader.t) :
  kept json_dumps u (state_after (Uploader.run json_dumps u)).
Proof.
  destruct (run_cases u) as [[Hbusy | Hq] | [Hd Hq]].
  - rewrite (run_busy json_dumps u Hbusy). repeat split. intros H. exact H.
  - rewrite (run_empty json_dumps u Hq). repeat split. intros H. exact H.
  - rewrite (run_sends json_dumps u Hd Hq). repeat split. intros _.
    unfold attempt_ok. cbn. exists (Uploader.queue u). repeat split. exact Hq.
Qed.

Lemma callback_kept (response : string) (u : Uploader.t) :
  kept json_dumps u (state_after (Uploader.deferred_callback response u)).
Proof.
  destruct (Uploader.events_being_sent u) as [batch|] eqn:Hb.
  - rewrite (callback_eq response u batch Hb). repeat split.
  - rewrite (callback_unassigned response u Hb). repeat split. intros H. exact H.
Qed.

Lemma errback_kept (error : string) (u : Uploader.t) :
  kept json_dumps u (state_after (Uploader.deferred_errback error u)).
Proof.
  destruct (Uploader.events_being_sent u) as [batch|] eqn:Hb.
  - rewrite (errback_eq error u batch Hb). repeat split.
  - rewrite (errback_unassigned error u Hb). repeat split. intros H. exact H.
Qed.

Lemma kept_refl (u : Uploader.t) : kept json_dumps u u.
Proof. repeat split. intros H. exact H. Qed.

Lemma kept_trans (u1 u2 u3 : Uploader.t) : kept json_dumps u1 u2 -> kept json_dumps u2 u3 -> kept json_dumps u1 u3.
Proof.
  intros (Ha & Hn & Hu) (Ha' & Hn' & Hu'). repeat split.
  - intros H. apply Ha', Ha, H.
  - congruence.
  - congruence.
Qed.

Lemma fire_kept (w : world) (c : call) :
  kept json_dumps (uploader w) (uploader (fire json_dumps w c)).
Proof.
  destruct c as [event | | response | error]; cbn [fire uploader].
  - apply append_kept.
  - apply run_kept.
  - destruct (Uploader.deferred (uploader w)); [apply callback_kept | apply kept_refl].
  - destruct (Uploader.deferred (uploader w)); [apply errback_kept | apply kept_refl].
Qed.

Lemma play_kept (calls : list call) (w : world) :
  kept json_dumps (uploader w) (uploader (play json_dumps w calls)).
Proof.
  revert w. induction calls as [|c calls IH]; intros w; [apply kept_refl|].
  cbn [play foldl]. eapply kept_trans; [apply fire_kept | apply IH].
Qed.

(** An attempt under way has its batch: both callbacks return. *)
Lemma attempt_ok_callbacks (u : Uploader.t) (response error : string) :
  attempt_ok json_dumps u ->
  is_Some (Uploader.deferred u) ->
  outcome (Uploader.deferred_callback response u) = Ok tt /\
  outcome (Uploader.deferred_errback error u) = Ok tt.
Proof.
  unfold attempt_ok. intros Hok [req Hd]. rewrite Hd in Hok.
  destruct Hok as (batch & Hb & _ & _).
  rewrite (callback_eq response u batch Hb), (errback_eq error u batch Hb).
  split; reflexivity.
Qed.

(** X2: in every state an uploader reaches, its name and URL are those
    it was made with, and when an attempt is under way,
    [events_being_sent] holds a batch that is not empty and the request
    under way is the POST of exactly that batch to the uploader's URL. *)
Theorem uploader_attempt_invariant (name url : string) (calls : list call) :
  let u := uploader (play json_dumps (fresh name url) calls) in
  attempt_ok json_dumps u /\
  Uploader.name u = name /\
  Uploader.url u = url.
Proof.
  destruct (play_kept calls (fresh name url)) as (Ha & Hn & Hu).
  cbn. repeat split; [apply Ha; exact I | exact Hn | exact Hu].
Qed.

(** Whenever an attempt is under way in a state an uploader can
    reach, [deferred_callback] and [deferred_errback] both return: the
    attribute [events_being_sent], which [__init__] does not assign, is
    assigned by then. *)
Lemma callbacks_return_while_in_flight (name url : string) (calls : list call)
    (response error : string) :
  let u := uploader (play json_dumps (fresh name url) calls) in
  is_Some (Uploader.deferred u) ->
  outcome (Uploader.deferred_callback response u) = Ok tt /\
  outcome (Uploader.deferred_errback error u) = Ok tt.
Proof.
  intros u Hd. apply attempt_ok_callbacks; [|exact Hd].
  destruct (play_kept calls (fresh name url)) as (Ha & _ & _).
  apply Ha. exact I.
Qed.

Lemma play_appends (events : list json) (w : world) :
  play json_dumps w (Append <$> events) =
  mkWorld (Uploader.set_queue (Uploader.queue (uploader w) ++ events) (uploader w))
          (delivered w).
Proof.
  revert w. induction events as [|event events IH]; intros [u d].
  - cbn. rewrite app_nil_r. destruct u. reflexivity.
  - cbn [fmap list_fmap play foldl]. change (foldl (fire json_dumps)) with (play json_dumps).
    cbn [fire]. rewrite append_eq. cbn [state_after fst snd uploader delivered].
    rewrite IH. cbn. rewrite <- app_assoc. reflexivity.
Qed.

(** X3: on an uploader that has never sent, whatever was appended to it,
    [deferred_callback] and [deferred_errback] raise [AttributeError] for
    [events_being_sent] and change nothing; [deferred_errback] has logged
    the failure before. *)
Theorem callbacks_raise_before_first_send (name url : string) (events : list json)
    (response error : string) :
  let u := uploader (play json_dumps (fresh name url) (Append <$> events)) in
  Uploader.deferred_callback response u =
    (Raise (AttributeError "events_being_sent"), u, []) /\
  Uploader.deferred_errback error u =
    (Raise (AttributeError "events_being_sent"), u,
     [Log ERROR "Could not upload events for %s: %s" [JStr name; JStr error]]).
Proof.
  cbn zeta. rewrite play_appends. cbn [uploader fresh].
  split.
  - apply callback_unassigned. reflexivity.
  - apply errback_unassigned. reflexivity.
Qed.

End UploaderAttempts.

Section UploaderRequests.

Variable json_dumps : json -> string.

Lemma posts_app (out1 out2 : list effect) :
  posts (out1 ++ out2) = posts out1 ++ posts out2.
Proof. unfold posts. apply omap_app. Qed.

Lemma fire_posts_bound (w : world) (c : call) :
  length (posts (fire_effects json_dumps w c)) + under_way (uploader w) <=
  (if is_completion c then 1 else 0) + under_way (uploader (fire json_dumps w c)).
Proof.
  destruct w as [u d]. unfold under_way.
  destruct c as [event | | response | error];
    cbn [fire fire_effects uploader delivered is_completion].
  - rewrite append_eq. cbn. lia.
  - destruct (run_cases u) as [[Hbusy | Hq] | [Hd Hq]].
    + rewrite (run_busy json_dumps u Hbusy). cbn. lia.
    + rewrite (run_empty json_dumps u Hq). cbn. lia.
    + rewrite (run_sends json_dumps u Hd Hq). cbn. rewrite Hd. cbn. lia.
  - destruct (Uploader.deferred u) as [req|] eqn:Hd; [|cbn; rewrite Hd; cbn; lia].
    destruct (Uploader.events_being_sent u) as [batch|] eqn:Hb.
    + rewrite (callback_eq response u batch Hb). cbn. lia.
    + rewrite (callback_unassigned response u Hb). cbn. rewrite Hd. lia.
  - destruct (Uploader.deferred u) as [req|] eqn:Hd; [|cbn; rewrite Hd; cbn; lia].
    destruct (Uploader.events_being_sent u) as [batch|] eqn:Hb.
    + rewrite (errback_eq error u batch Hb). cbn. lia.
    + rewrite (errback_unassigned error u Hb). cbn. rewrite Hd. lia.
Qed.

Lemma play_posts_bound (calls : list call) (w : world) :
  length (posts (play_effects json_dumps w calls)) + under_way (uploader w) <=
  length (List.filter is_completion calls) +
  under_way (uploader (play json_dumps w calls)).
Proof.
  revert w. induction calls as [|c calls IH]; intros w; [cbn; lia|].
  cbn [play_effects play foldl]. rewrite posts_app, length_app.
  specialize (IH (fire json_dumps w c)).
  change (foldl (fire json_dumps)) with (play json_dumps).
  pose proof (fire_posts_bound w c) as Hc.
  cbn [List.filter]. destruct (is_completion c); cbn [length]; lia.
Qed.

(** X4, at most one attempt at a time: over any sequence of calls on a
    fresh uploader, the page requests made are at most the attempts that
    were ended by a callback or an errback, plus the one under way at the
    end if there is one. *)
Theorem one_request_per_completion (name url : string) (calls : list call) :
  length (posts (play_effects json_dumps (fresh name url) calls)) <=
  length (List.filter is_completion calls) +
  under_way (uploader (play json_dumps (fresh name url) calls)).
Proof.
  pose proof (play_posts_bound calls (fresh name url)) as H.
  change (under_way (uploader (fresh name url))) with 0 in H. lia.
Qed.

Lemma fire_batch_posts (w : world) (c : call) :
  Forall (batch_post json_dumps (Uploader.url (uploader w)))
    (posts (fire_effects json_dumps w c)).
Proof.
  destruct w as [u d].
  destruct c as [event | | response | error]; cbn [fire_effects uploader].
  - rewrite append_eq. constructor.
  - destruct (run_cases u) as [[Hbusy | Hq] | [Hd Hq]].
    + rewrite (run_busy json_dumps u Hbusy). constructor.
    + rewrite (run_empty json_dumps u Hq). constructor.
    + rewrite (run_sends json_dumps u Hd Hq). cbn.
      constructor; [|constructor]. exists (Uploader.queue u). split; [exact Hq | reflexivity].
  - destruct (Uploader.deferred u) as [req|]; [|constructor].
    destruct (Uploader.events_being_sent u) as [batch|] eqn:Hb.
    + rewrite (callback_eq response u batch Hb). constructor.
    + rewrite (callback_unassigned response u Hb). constructor.
  - destruct (Uploader.deferred u) as [req|]; [|constructor].
    destruct (Uploader.events_being_sent u) as [batch|] eqn:Hb.
    + rewrite (errback_eq error u batch Hb). constructor.
    + rewrite (errback_unassigned error u Hb). constructor.
Qed.

Lemma play_batch_posts (calls : list call) (w : world) :
  Forall (batch_post json_dumps (Uploader.url (uploader w)))
    (posts (play_effects json_dumps w calls)).
Proof.
  revert w. induction calls as [|c calls IH]; intros w; [constructor|].
  cbn [play_effects]. rewrite posts_app. apply Forall_app. split.
  - apply fire_batch_posts.
  - destruct (fire_kept json_dumps w c) as (_ & _ & Hurl).
    rewrite <- Hurl. apply IH.
Qed.

(** X5: every page request an uploader ever makes is a POST to its own
    URL, without headers, whose body is [json.dumps] of a list of events
    that is not empty. *)
Theorem requests_are_batches (name url : string) (calls : list call) :
  Forall (batch_post json_dumps url)
    (posts (play_effects json_dumps (fresh name url) calls)).
Proof. apply (play_batch_posts calls (fresh name url)). Qed.

(** X6, a page that never ends blocks the uploader: while an attempt is
    under way, [append] and [run], in any number and order, make no page
    request and leave the attempt and its batch alone; the appended
    events pile up at the end of the queue. *)
Theorem blocked_while_in_flight (u : Uploader.t) (done : list json) (calls : list call) :
  is_Some (Uploader.deferred u) ->
  forallb (fun c => negb (is_completion c)) calls = true ->
  let w := play json_dumps (mkWorld u done) calls in
  posts (play_effects json_dumps (mkWorld u done) calls) = [] /\
  Uploader.deferred (uploader w) = Uploader.deferred u /\
  Uploader.events_being_sent (uploader w) = Uploader.events_being_sent u /\
  Uploader.queue (uploader w) = Uploader.queue u ++ enqueued calls /\
  delivered w = done.
Proof.
  revert u. induction calls as [|c calls IH]; intros u Hbusy Hcalls.
  - cbn. rewrite app_nil_r. repeat split.
  - cbn [forallb] in Hcalls. apply andb_prop in Hcalls as [Hc Hcalls].
    cbn zeta. cbn [play foldl play_effects].
    change (foldl (fire json_dumps)) with (play json_dumps).
    rewrite posts_app, enqueued_cons.
    destruct c as [event | | response | error]; try discriminate Hc;
      cbn [fire fire_effects uploader delivered].
    + rewrite append_eq. cbn [state_after effects fst snd posts omap list_omap].
      destruct (IH (Uploader.set_queue (Uploader.queue u ++ [event]) u))
        as (H1 & H2 & H3 & H4 & H5); [exact Hbusy | exact Hcalls |].
      cbn zeta in *. rewrite H1, H2, H3, H4, H5. cbn.
      rewrite <- app_assoc. repeat split.
    + rewrite (run_busy json_dumps u Hbusy).
      cbn [state_after effects fst snd posts omap list_omap].
      destruct (IH u) as (H1 & H2 & H3 & H4 & H5); [exact Hbusy | exact Hcalls |].
      cbn zeta in *. rewrite H1, H2, H3, H4, H5. repeat split.
Qed.

(** X7, after a success: when [run] has sent a queue and events arrive
    before the page ends well, the sent batch is delivered once, no
    attempt is left under way, [events_being_sent] is emptied, and the
    queue is exactly the events that arrived meanwhile, which the next
    [run] posts. *)
Theorem success_keeps_later_events (u : Uploader.t) (later : list json)
    (response : string) :
  Uploader.deferred u = None ->
  Uploader.queue u <> [] ->
  let w := play json_dumps (mkWorld u [])
             (Run :: (Append <$> later) ++ [Callback response]) in
  delivered w = Uploader.queue u /\
  Uploader.deferred (uploader w) = None /\
  Uploader.events_being_sent (uploader w) = Some [] /\
  Uploader.queue (uploader w) = later /\
  (later <> [] ->
   posts (effects (Uploader.run json_dumps (uploader w))) =
     [mkRequest (Uploader.url u) [] "POST" (json_dumps (JArr later))]).
Proof.
  intros Hd Hq. cbn zeta. cbn [play foldl].
  change (foldl (fire json_dumps)) with (play json_dumps).
  unfold play at 1 2 3 4 5. rewrite foldl_app.
  change (foldl (fire json_dumps)) with (play json_dumps).
  cbn [fire uploader delivered]. rewrite (run_sends json_dumps u Hd Hq).
  cbn [state_after fst snd]. rewrite play_appends. cbn [foldl fire uploader delivered].
  cbn. repeat split.
  intros Hlater. destruct later as [|e later]; [congruence|]. reflexivity.
Qed.

End UploaderRequests.

(** ** More on the dispatcher: construction and what every state keeps *)

Lemma bind_ok_state {St A B} (m : Py St A) (f : A -> Py St B) (s s1 : St)
    (a : A) (o1 : list effect) :
  m s = (Ok a, s1, o1) ->
  bind m f s = (outcome (f a s1), state_after (f a s1), o1 ++ effects (f a s1)).
Proof.
  intros Hm. unfold bind. rewrite Hm.
  destruct (f a s1) as [[r s2] o2]. reflexivity.
Qed.

Lemma bind_raise {St A B} (m : Py St A) (f : A -> Py St B) (s s1 : St)
    (e : exn) (o1 : list effect) :
  m s = (Raise e, s1, o1) ->
  bind m f s = (Raise e, s1, o1).
Proof. intros Hm. unfold bind. rewrite Hm. reflexivity. Qed.

Lemma init_loop (l : list (string * string)) (s : EventDispatcher.t) (k : string) :
  NoDup l.*1 ->
  EventDispatcher.uploaders
    (state_after
       (for_each l
          (fun '(name, url) =>
             (self <- get ;;
              put (EventDispatcher.set_uploader name (Uploader.init name url) self))%py)
          s)) !! k =
  match (list_to_map l : gmap string string) !! k with
  | Some url => Some (Uploader.init k url)
  | None => EventDispatcher.uploaders s !! k
  end.
Proof.
  revert s. induction l as [|[name url] l IH]; intros s Hnd.
  - cbn. reflexivity.
  - cbn [fmap list_fmap fst] in Hnd. apply NoDup_cons in Hnd as [Hname Hnd].
    cbn [for_each].
    erewrite bind_ok_state by reflexivity. cbn [state_after fst snd].
    rewrite (IH _ Hnd). cbn [list_to_map foldr]. cbn [EventDispatcher.set_uploader EventDispatcher.uploaders].
    destruct (decide (k = name)) as [-> | Hne].
    + rewrite (not_elem_of_list_to_map_1 (M := gmap string) l name Hname).
      rewrite !lookup_insert_eq. reflexivity.
    + rewrite !(lookup_insert_ne _ name k) by congruence. reflexivity.
Qed.

Lemma create_lookup (urls : gmap string string) (k : string) :
  EventDispatcher.uploaders (EventDispatcher.create urls) !! k =
  Uploader.init k <$> urls !! k.
Proof.
  unfold EventDispatcher.create, EventDispatcher.init.
  erewrite bind_ok_state by reflexivity. cbn [state_after fst snd]. cbv beta.
  match goal with
  | |- context [bind (for_each ?l ?b) ?f ?s] =>
      unfold bind at 1; set (loop := for_each l b s)
  end.
  assert (Hloop : EventDispatcher.uploaders (state_after loop) !! k =
                  Uploader.init k <$> urls !! k).
  { subst loop. rewrite init_loop by apply NoDup_fst_map_to_list.
    rewrite list_to_map_to_list. cbn. rewrite lookup_empty.
    destruct (urls !! k); reflexivity. }
  destruct loop as [[[[] | e] s1] o1]; cbn [state_after fst snd] in *.
  - erewrite bind_ok_state by reflexivity. cbn. exact Hloop.
  - cbn. exact Hloop.
Qed.

Section DispatcherInvariant.

Variable json_dumps : json -> string.
Variable urls : gmap string string.

Lemma on_uploader_sound {A} (name : json) (m : Py Uploader.t A) (d : EventDispatcher.t) :
  (forall u, kept json_dumps u (state_after (m u))) ->
  sound json_dumps urls d ->
  sound json_dumps urls (state_after (EventDispatcher.on_uploader name m d)).
Proof.
  intros Hm Hd. unfold EventDispatcher.on_uploader.
  destruct name as [| | | |key| |]; try exact Hd.
  destruct (EventDispatcher.uploaders d !! key) as [u|] eqn:Hkey; [|exact Hd].
  specialize (Hm u). destruct (m u) as [[r u'] out]. cbn in Hm |- *.
  destruct Hm as (Hok & Hname & Hurl). destruct Hd as [Hconf Hall].
  split.
  - intros k. cbn. destruct (decide (k = key)) as [-> | Hne].
    + rewrite lookup_insert_eq. specialize (Hconf key). rewrite Hkey in Hconf.
      destruct Hconf as [Hn Hu]. split; congruence.
    + rewrite lookup_insert_ne by congruence. apply Hconf.
  - intros k v. cbn. destruct (decide (k = key)) as [-> | Hne].
    + rewrite lookup_insert_eq. intros [= <-]. apply Hok. apply (Hall key u Hkey).
    + rewrite lookup_insert_ne by congruence. apply Hall.
Qed.

Lemma add_event_sound (event : json) (d : EventDispatcher.t) :
  sound json_dumps urls d ->
  sound json_dumps urls (state_after (EventDispatcher.add_event event d)).
Proof.
  intros Hd. unfold EventDispatcher.add_event.
  apply (bind_state (sound json_dumps urls)); [exact Hd|]. intros name s1 H1.
  apply (bind_state (sound json_dumps urls)); [exact H1|]. intros event_type s2 H2.
  apply (bind_state (sound json_dumps urls)); [exact H2|]. intros email s3 H3.
  apply (bind_state (sound json_dumps urls)); [exact H3|]. intros _ s4 H4.
  apply on_uploader_sound; [|exact H4]. intros u. apply append_kept.
Qed.

Lemma dispatch_sound (d : EventDispatcher.t) :
  sound json_dumps urls d ->
  sound json_dumps urls (state_after (EventDispatcher.dispatch json_dumps d)).
Proof.
  intros Hd. unfold EventDispatcher.dispatch.
  apply (bind_state (sound json_dumps urls)); [exact Hd|]. intros self s1 H1.
  apply (bind_state (sound json_dumps urls)); [exact H1|]. intros _ s2 H2.
  apply (for_each_state (sound json_dumps urls)); [|exact H2].
  intros name s3 _ H3. apply on_uploader_sound; [|exact H3].
  intros u. apply run_kept.
Qed.

Lemma render_POST_sound (content : json) (d : EventDispatcher.t) :
  sound json_dumps urls d ->
  sound json_dumps urls (state_after (EventHandler.render_POST json_dumps content d)).
Proof.
  intros Hd. unfold EventHandler.render_POST.
  apply (bind_state (sound json_dumps urls)); [exact Hd|]. intros events s1 H1.
  apply (bind_state (sound json_dumps urls)).
  - apply (for_each_state (sound json_dumps urls)); [|exact H1].
    intros event s2 _ H2. apply add_event_sound. exact H2.
  - intros _ s2 H2.
    apply (bind_state (sound json_dumps urls)); [apply dispatch_sound; exact H2|].
    intros _ s3 H3. exact H3.
Qed.

Lemma loop_fire_sound (d : EventDispatcher.t) (c : loop_call) :
  sound json_dumps urls d ->
  sound json_dumps urls (loop_fire json_dumps d c).
Proof.
  intros Hd.
  destruct c as [content | event | | name response | name error]; cbn [loop_fire].
  - apply render_POST_sound. exact Hd.
  - apply add_event_sound. exact Hd.
  - apply dispatch_sound. exact Hd.
  - destruct (attempt_under_way d name); [|exact Hd].
    apply on_uploader_sound; [|exact Hd]. intros u. apply callback_kept.
  - destruct (attempt_under_way d name); [|exact Hd].
    apply on_uploader_sound; [|exact Hd]. intros u. apply errback_kept.
Qed.

Lemma create_sound : sound json_dumps urls (EventDispatcher.create urls).
Proof.
  split.
  - intros name. rewrite create_lookup. destruct (urls !! name); cbn; auto.
  - intros name u. rewrite create_lookup.
    destruct (urls !! name); cbn; [|discriminate]. intros [= <-]. exact I.
Qed.

Lemma reachable_sound (calls : list loop_call) :
  sound json_dumps urls (loop_play json_dumps (EventDispatcher.create urls) calls).
Proof.
  generalize create_sound. generalize (EventDispatcher.create urls).
  induction calls as [|c calls IH]; intros d Hd; [exact Hd|].
  cbn [loop_play foldl]. apply IH. apply loop_fire_sound. exact Hd.
Qed.

(** X8: [EventDispatcher()] makes, for each configured name and no other,
    an idle uploader with that name, its URL and an empty queue. *)
Theorem create_makes_one_uploader_per_name (name : string) :
  EventDispatcher.uploaders (EventDispatcher.create urls) !! name =
  Uploader.init name <$> urls !! name.
Proof. apply create_lookup. Qed.

(** X9: in every state the dispatcher reaches, whatever requests, ticks and
    page results came in, its uploaders are those of the configuration:
    one under each configured name, bearing that name and the configured
    URL, and none under any other name. *)
Theorem uploaders_stay_as_configured (calls : list loop_call) (name : string) :
  let d := loop_play json_dumps (EventDispatcher.create urls) calls in
  match EventDispatcher.uploaders d !! name with
  | Some u => Uploader.name u = name /\ urls !! name = Some (Uploader.url u)
  | None => urls !! name = None
  end.
Proof. destruct (reachable_sound calls) as [Hconf _]. apply Hconf. Qed.

(** X10: in every state the dispatcher reaches, when the page of an uploader
    ends, well or not, the callback returns: it never meets an
    unassigned [events_being_sent]. *)
Theorem page_results_are_handled (calls : list loop_call) (name response error : string) :
  let d := loop_play json_dumps (EventDispatcher.create urls) calls in
  attempt_under_way d name = true ->
  outcome (EventDispatcher.on_uploader (JStr name)
             (Uploader.deferred_callback response) d) = Ok tt /\
  outcome (EventDispatcher.on_uploader (JStr name)
             (Uploader.deferred_errback error) d) = Ok tt.
Proof.
  intros d. destruct (reachable_sound calls) as [_ Hall]. fold d in Hall.
  unfold attempt_under_way, EventDispatcher.on_uploader.
  destruct (EventDispatcher.uploaders d !! name) as [u|] eqn:Hu; [|discriminate].
  intros Hbusy. apply bool_decide_eq_true_1 in Hbusy.
  destruct (attempt_ok_callbacks json_dumps u response error (Hall name u Hu) Hbusy)
    as [Hcb Heb].
  unfold outcome in *.
  destruct (Uploader.deferred_callback response u) as [[r1 u1] o1].
  destruct (Uploader.deferred_errback error u) as [[r2 u2] o2].
  cbn in *. split; assumption.
Qed.

End DispatcherInvariant.

(** ** More on [add_event] *)

(** X11: an event whose [unique_args.deployment] names an uploader, and
    which has the fields [event] and [email], is appended at the end of
    the queue of that uploader.  Nothing else of that uploader and no
    other uploader changes, no page request is made, and one line is
    logged. *)
Theorem add_event_routes_to_tag (d : EventDispatcher.t) (fields args : gmap string json)
    (tag : string) (event_type email : json) (u : Uploader.t) :
  fields !! "unique_args" = Some (JObj args) ->
  args !! "deployment" = Some (JStr tag) ->
  fields !! "event" = Some event_type ->
  fields !! "email" = Some email ->
  EventDispatcher.uploaders d !! tag = Some u ->
  let r := EventDispatcher.add_event (JObj fields) d in
  outcome r = Ok tt /\
  EventDispatcher.uploaders (state_after r) !! tag =
    Some (Uploader.set_queue (Uploader.queue u ++ [JObj fields]) u) /\
  (forall other, other <> tag ->
     EventDispatcher.uploaders (state_after r) !! other =
     EventDispatcher.uploaders d !! other) /\
  effects r =
    [Log INFO "ADD_EVENT: %s %s -> uploader %s" [event_type; email; JStr tag]].
Proof.
  intros Hargs Htag Hty Hem Hu.
  unfold EventDispatcher.add_event, bind, lift, EventDispatcher.get_uploader_name.
  cbn [py_get py_getitem]. rewrite Hargs. cbn. rewrite Htag, Hty, Hem. cbn.
  rewrite Hu. cbn. repeat split.
  - apply lookup_insert_eq.
  - intros other Hne. apply lookup_insert_ne. congruence.
Qed.


(** X13: when the event is not a dictionary, or its [unique_args] is
    there and is not a dictionary (a JSON [null], say), [add_event]
    raises [AttributeError] and changes nothing: the default name is not
    used. *)
Theorem add_event_needs_dictionaries (d : EventDispatcher.t) (event : json) :
  match event with
  | JObj fields =>
      match fields !! "unique_args" with
      | Some (JObj _) | None => False
      | Some _ => True
      end
  | _ => True
  end ->
  EventDispatcher.get_uploader_name event = Raise (AttributeError "get") /\
  EventDispatcher.add_event event d = (Raise (AttributeError "get"), d, []).
Proof.
  intros Hbad.
  assert (Hname : EventDispatcher.get_uploader_name event = Raise (AttributeError "get")).
  { unfold EventDispatcher.get_uploader_name.
    destruct event as [| | | | | |fields]; try reflexivity.
    cbn [py_get]. destruct (fields !! "unique_args") as [[| | | | | |]|];
      try reflexivity; contradiction. }
  split; [exact Hname|].
  unfold EventDispatcher.add_event, bind, lift. rewrite Hname. reflexivity.
Qed.

(** X14: a deployment that is not a string never routes.  With the logged
    fields present, a list or a dictionary cannot be a key
    ([TypeError]); a number, a boolean or [null] is a key that is not
    there ([KeyError] of that value).  The dispatcher is unchanged. *)
Theorem add_event_needs_string_tag (d : EventDispatcher.t) (event tag event_type email : json) :
  EventDispatcher.get_uploader_name event = Ok tag ->
  py_getitem event "event" = Ok event_type ->
  py_getitem event "email" = Ok email ->
  match tag with JStr _ => False | _ => True end ->
  state_after (EventDispatcher.add_event event d) = d /\
  outcome (EventDispatcher.add_event event d) =
    match tag with
    | JArr _ => Raise (TypeError "unhashable type: 'list'")
    | JObj _ => Raise (TypeError "unhashable type: 'dict'")
    | _ => Raise (KeyError tag)
    end.
Proof.
  intros Hname Hty Hem Htag.
  unfold EventDispatcher.add_event, bind, lift. rewrite Hname, Hty, Hem. cbn.
  destruct tag; try contradiction; split; reflexivity.
Qed.

(** X15, the uploaders do not touch each other: the result of a page, an
    appended event, touch the uploader they name and leave every other
    one as it was. *)
Theorem other_uploaders_untouched (json_dumps : json -> string) (d : EventDispatcher.t)
    (name other : string) (response error : string) (event : json) :
  other <> name ->
  EventDispatcher.uploaders (loop_fire json_dumps d (PageDone name response)) !! other =
    EventDispatcher.uploaders d !! other /\
  EventDispatcher.uploaders (loop_fire json_dumps d (PageFailed name error)) !! other =
    EventDispatcher.uploaders d !! other /\
  (EventDispatcher.get_uploader_name event = Ok (JStr name) ->
   EventDispatcher.uploaders (loop_fire json_dumps d (AddEvent event)) !! other =
     EventDispatcher.uploaders d !! other).
Proof.
  intros Hne.
  assert (Hon : forall A (m : Py Uploader.t A),
             EventDispatcher.uploaders
               (state_after (EventDispatcher.on_uploader (JStr name) m d)) !! other =
             EventDispatcher.uploaders d !! other).
  { intros A m. unfold EventDispatcher.on_uploader.
    destruct (EventDispatcher.uploaders d !! name) as [u|]; [|reflexivity].
    destruct (m u) as [[r u'] out]. cbn. apply lookup_insert_ne. congruence. }
  cbn [loop_fire]. repeat split.
  - destruct (attempt_under_way d name); [apply Hon | reflexivity].
  - destruct (attempt_under_way d name); [apply Hon | reflexivity].
  - intros Hname. unfold EventDispatcher.add_event.
    erewrite bind_ok_state by (unfold lift; rewrite Hname; reflexivity).
    cbn [state_after fst snd].
    destruct (py_getitem event "event") as [event_type|] eqn:Hty;
      [|erewrite bind_raise by reflexivity; reflexivity].
    erewrite bind_ok_state by reflexivity.
    cbn [state_after fst snd].
    destruct (py_getitem event "email") as [email|] eqn:Hem;
      [|erewrite bind_raise by reflexivity; reflexivity].
    erewrite bind_ok_state by reflexivity.
    cbn [state_after fst snd].
    erewrite bind_ok_state by reflexivity. cbn [state_after fst snd].
    apply Hon.
Qed.

(** ** More on [dispatch] *)

Section DispatchAll.

Variable json_dumps : json -> string.

(** [run] on its own never raises. *)
Lemma run_ok (u : Uploader.t) : outcome (Uploader.run json_dumps u) = Ok tt.
Proof.
  destruct (run_cases u) as [[Hbusy | Hq] | [Hd Hq]].
  - rewrite (run_busy json_dumps u Hbusy). reflexivity.
  - rewrite (run_empty json_dumps u Hq). reflexivity.
  - rewrite (run_sends json_dumps u Hd Hq). reflexivity.
Qed.

Lemma run_posts (u : Uploader.t) :
  posts (effects (Uploader.run json_dumps u)) =
  if ready u then [request_of json_dumps u] else [].
Proof.
  unfold ready.
  destruct (run_cases u) as [[Hbusy | Hq] | [Hd Hq]].
  - rewrite (run_busy json_dumps u Hbusy).
    rewrite bool_decide_eq_true_2 by exact Hbusy. reflexivity.
  - rewrite (run_empty json_dumps u Hq). rewrite Hq. cbn [length Nat.eqb].
    rewrite orb_true_r. reflexivity.
  - rewrite (run_sends json_dumps u Hd Hq). rewrite Hd.
    destruct (Uploader.queue u); [congruence|]. reflexivity.
Qed.

Lemma ready_after_run (u : Uploader.t) :
  ready (state_after (Uploader.run json_dumps u)) = false.
Proof.
  unfold ready.
  destruct (run_cases u) as [[Hbusy | Hq] | [Hd Hq]].
  - rewrite (run_busy json_dumps u Hbusy). cbn.
    rewrite bool_decide_eq_true_2 by exact Hbusy. reflexivity.
  - rewrite (run_empty json_dumps u Hq). cbn. rewrite Hq. cbn.
    rewrite orb_true_r. reflexivity.
  - rewrite (run_sends json_dumps u Hd Hq). reflexivity.
Qed.

Lemma run_twice (u : Uploader.t) :
  state_after (Uploader.run json_dumps (state_after (Uploader.run json_dumps u))) =
  state_after (Uploader.run json_dumps u).
Proof.
  destruct (run_cases u) as [[Hbusy | Hq] | [Hd Hq]].
  - rewrite (run_busy json_dumps u Hbusy). cbn [state_after fst snd].
    rewrite (run_busy json_dumps u Hbusy). reflexivity.
  - rewrite (run_empty json_dumps u Hq). cbn [state_after fst snd].
    rewrite (run_empty json_dumps u Hq). reflexivity.
  - rewrite (run_sends json_dumps u Hd Hq). reflexivity.
Qed.

(** The loop of [dispatch], over the items of the dictionary. *)
Lemma run_each (items : list (string * Uploader.t)) (d : EventDispatcher.t) :
  NoDup items.*1 ->
  (forall k u, (k, u) ∈ items -> EventDispatcher.uploaders d !! k = Some u) ->
  let r := for_each items.*1
             (fun name =>
                EventDispatcher.on_uploader (JStr name) (Uploader.run json_dumps)) d in
  outcome r = Ok tt /\
  (forall k,
     EventDispatcher.uploaders (state_after r) !! k =
     match (list_to_map items : gmap string Uploader.t) !! k with
     | Some u => Some (state_after (Uploader.run json_dumps u))
     | None => EventDispatcher.uploaders d !! k
     end) /\
  posts (effects r) = items ≫= (fun '(_, u) => posts (effects (Uploader.run json_dumps u))).
Proof.
  revert d. induction items as [|[name u] items IH]; intros d Hnd Hin.
  - cbn. repeat split.
  - cbn [fmap list_fmap fst] in Hnd. apply NoDup_cons in Hnd as [Hname Hnd].
    assert (Hu : EventDispatcher.uploaders d !! name = Some u)
      by (apply Hin; left).
    pose proof (run_ok u) as Hok.
    destruct (Uploader.run json_dumps u) as [[r1 u1] o1] eqn:Hrun.
    cbn in Hok. subst r1.
    cbn zeta. cbn [fmap list_fmap fst for_each].
    erewrite bind_ok_state
      by (unfold EventDispatcher.on_uploader; rewrite Hu, Hrun; reflexivity).
    cbn [outcome state_after effects fst snd].
    destruct (IH (EventDispatcher.set_uploader name u1 d) Hnd) as (H1 & H2 & H3).
    { intros k v Hkv. cbn. rewrite lookup_insert_ne; [apply Hin; right; exact Hkv|].
      intros ->. apply Hname. apply list_elem_of_fmap. exists (k, v). split; [reflexivity | exact Hkv]. }
    cbn zeta in H1, H2, H3. repeat split.
    + exact H1.
    + intros k. rewrite H2. cbn [list_to_map foldr EventDispatcher.set_uploader EventDispatcher.uploaders].
      destruct (decide (k = name)) as [-> | Hne].
      * rewrite (not_elem_of_list_to_map_1 (M := gmap string) items name Hname).
        rewrite !lookup_insert_eq. cbn [snd]. rewrite Hrun. reflexivity.
      * rewrite !(lookup_insert_ne _ name k) by congruence. reflexivity.
    + rewrite posts_app. unfold effects in H3 |- *. rewrite H3.
      change (((name, u) :: items) ≫=
                (fun '(_, u) => posts (Uploader.run json_dumps u).2))
        with (posts (Uploader.run json_dumps u).2 ++
              (items ≫= (fun '(_, u) => posts (Uploader.run json_dumps u).2))).
      rewrite Hrun. reflexivity.
Qed.

Lemma ready_posts (us : list Uploader.t) :
  us ≫= (fun u => posts (effects (Uploader.run json_dumps u))) =
  omap (fun u => if ready u then Some (request_of json_dumps u) else None) us.
Proof.
  induction us as [|u us IH]; [reflexivity|].
  change (posts (effects (Uploader.run json_dumps u)) ++
          (us ≫= (fun u => posts (effects (Uploader.run json_dumps u)))) =
          omap (fun u => if ready u then Some (request_of json_dumps u) else None)
            (u :: us)).
  rewrite IH, run_posts. cbn [omap list_omap]. destruct (ready u); reflexivity.
Qed.

Lemma dispatch_eq (d : EventDispatcher.t) :
  outcome (EventDispatcher.dispatch json_dumps d) = Ok tt /\
  EventDispatcher.uploaders (state_after (EventDispatcher.dispatch json_dumps d)) =
    (fun u => state_after (Uploader.run json_dumps u)) <$> EventDispatcher.uploaders d /\
  posts (effects (EventDispatcher.dispatch json_dumps d)) =
    omap (fun u => if ready u then Some (request_of json_dumps u) else None)
      (map_to_list (EventDispatcher.uploaders d)).*2.
Proof.
  unfold EventDispatcher.dispatch.
  erewrite bind_ok_state by reflexivity. cbn [outcome state_after effects fst snd].
  erewrite bind_ok_state by reflexivity. cbn [outcome state_after effects fst snd].
  destruct (run_each (map_to_list (EventDispatcher.uploaders d)) d) as (H1 & H2 & H3).
  { apply NoDup_fst_map_to_list. }
  { intros k u Hku. apply elem_of_map_to_list. exact Hku. }
  cbn zeta in H1, H2, H3. repeat split.
  - exact H1.
  - apply map_eq. intros k. rewrite H2, list_to_map_to_list, lookup_fmap.
    destruct (EventDispatcher.uploaders d !! k); reflexivity.
  - rewrite !posts_app, H3. change (posts []) with (@nil Request).
    match goal with
    | |- [] ++ posts [?line] ++ _ = _ => change (posts [line]) with (@nil Request)
    end.
    cbn [app]. rewrite <- ready_posts. clear H1 H2 H3.
    induction (map_to_list (EventDispatcher.uploaders d)) as [|[k u] l IHl];
      [reflexivity|].
    change (posts (effects (Uploader.run json_dumps u)) ++
            (l ≫= (fun '(_, u) => posts (effects (Uploader.run json_dumps u)))) =
            posts (effects (Uploader.run json_dumps u)) ++
            (l.*2 ≫= (fun u => posts (effects (Uploader.run json_dumps u))))).
    rewrite IHl. reflexivity.
Qed.

(** X16: [dispatch] never raises.  It runs every uploader once: each is
    left as its own [run] leaves it, and the page requests made are, in
    some order, one for each uploader that was idle with a queue that was
    not empty: the POST of that queue. *)
Theorem dispatch_runs_every_uploader (d : EventDispatcher.t) :
  outcome (EventDispatcher.dispatch json_dumps d) = Ok tt /\
  EventDispatcher.uploaders (state_after (EventDispatcher.dispatch json_dumps d)) =
    (fun u => state_after (Uploader.run json_dumps u)) <$> EventDispatcher.uploaders d /\
  Permutation
    (posts (effects (EventDispatcher.dispatch json_dumps d)))
    (omap (fun u => if ready u then Some (request_of json_dumps u) else None)
       (map_to_list (EventDispatcher.uploaders d)).*2).
Proof.
  destruct (dispatch_eq d) as (H1 & H2 & H3).
  repeat split; [exact H1 | exact H2 | rewrite H3; reflexivity].
Qed.

(** X17: a second [dispatch] right after a [dispatch] does nothing: it
    makes no page request and leaves the dispatcher as it is. *)
Theorem dispatch_twice_is_dispatch_once (d : EventDispatcher.t) :
  let d1 := state_after (EventDispatcher.dispatch json_dumps d) in
  state_after (EventDispatcher.dispatch json_dumps d1) = d1 /\
  posts (effects (EventDispatcher.dispatch json_dumps d1)) = [].
Proof.
  intros d1.
  destruct (dispatch_eq d) as (_ & Hstate & _). fold d1 in Hstate.
  destruct (dispatch_eq d1) as (_ & Hstate1 & Hposts1).
  split.
  - destruct (state_after (EventDispatcher.dispatch json_dumps d1)) as [m2].
    destruct d1 as [m1]. cbn in *. f_equal. rewrite Hstate1, Hstate.
    rewrite <- map_fmap_compose. apply map_fmap_ext.
    intros k u _. cbn. apply run_twice.
  - rewrite Hposts1. rewrite Hstate.
    set (m := EventDispatcher.uploaders d).
    assert (Hall : Forall (fun u => ready u = false)
                     (map_to_list ((fun u => state_after (Uploader.run json_dumps u)) <$> m)).*2).
    { apply Forall_forall. intros v Hv.
      apply list_elem_of_fmap in Hv as ([k v'] & -> & Hkv).
      apply elem_of_map_to_list in Hkv. rewrite lookup_fmap in Hkv.
      destruct (m !! k) as [u|]; [|discriminate]. cbn in Hkv.
      injection Hkv as <-. apply ready_after_run. }
    induction Hall as [|v vs Hv _ IH]; [reflexivity|].
    cbn. rewrite Hv. exact IH.
Qed.

End DispatchAll.

(** ** More on [render_POST] *)

Lemma for_each_stops {St A} (body : A -> Py St unit) (good : list A) (bad : A)
    (rest : list A) (s s1 s2 : St) (o1 o2 : list effect) (e : exn) :
  for_each good body s = (Ok tt, s1, o1) ->
  body bad s1 = (Raise e, s2, o2) ->
  for_each (good ++ bad :: rest) body s = (Raise e, s2, o1 ++ o2).
Proof.
  revert s o1. induction good as [|x good IH]; intros s o1 Hgood Hbad.
  - cbn in Hgood. injection Hgood as <- <-. cbn [app for_each].
    unfold bind. rewrite Hbad. reflexivity.
  - cbn [app for_each] in *. unfold bind in Hgood |- *.
    destruct (body x s) as [[[[] | e'] s'] o']; [|discriminate].
    destruct (for_each good body s') as [[r s''] o''] eqn:Hrest.
    injection Hgood as -> -> <-.
    rewrite (IH s' o'' Hrest Hbad). rewrite app_assoc. reflexivity.
Qed.

Lemma for_each_posts {St A} (body : A -> Py St unit) (items : list A) (s : St) :
  (forall x s', posts (effects (body x s')) = []) ->
  posts (effects (for_each items body s)) = [].
Proof.
  intros Hbody. revert s. induction items as [|x items IH]; intros s; [reflexivity|].
  cbn [for_each]. unfold bind. pose proof (Hbody x s) as Hx.
  destruct (body x s) as [[[[] | e] s1] o1]; unfold effects in *; cbn [snd] in *;
    [|exact Hx].
  pose proof (IH s1) as Hr. destruct (for_each items body s1) as [[r s2] o2].
  cbn [snd] in *. rewrite posts_app, Hx, Hr. reflexivity.
Qed.

Lemma for_each_ok {St A} (P : St -> Prop) (body : A -> Py St unit) (items : list A) :
  (forall x s, In x items -> P s ->
     outcome (body x s) = Ok tt /\ P (state_after (body x s))) ->
  forall s, P s ->
    outcome (for_each items body s) = Ok tt /\ P (state_after (for_each items body s)).
Proof.
  induction items as [|x items IH]; intros Hbody s Hs; [split; [reflexivity | exact Hs]|].
  cbn [for_each]. unfold bind.
  destruct (Hbody x s (or_introl eq_refl) Hs) as [Hok HP].
  destruct (body x s) as [[r s1] o1]. cbn in Hok, HP. subst r.
  destruct (IH (fun y s' Hy => Hbody y s' (or_intror Hy)) s1 HP) as [Hok' HP'].
  destruct (for_each items body s1) as [[r s2] o2]. cbn in *. split; assumption.
Qed.

(** [add_event] makes no page request; when it raises, it has changed
    nothing. *)
Lemma add_event_quiet (event : json) (d : EventDispatcher.t) :
  posts (effects (EventDispatcher.add_event event d)) = [] /\
  (forall e, outcome (EventDispatcher.add_event event d) = Raise e ->
     state_after (EventDispatcher.add_event event d) = d).
Proof.
  unfold EventDispatcher.add_event, bind, lift.
  destruct (EventDispatcher.get_uploader_name event) as [name|]; [|split; [|intros]; reflexivity].
  destruct (py_getitem event "event") as [event_type|]; [|split; [|intros]; reflexivity].
  destruct (py_getitem event "email") as [email|]; [|split; [|intros]; reflexivity].
  cbn. unfold EventDispatcher.on_uploader.
  destruct name as [| | | |key| |]; try (split; [|intros]; reflexivity).
  destruct (EventDispatcher.uploaders d !! key) as [u|]; [|split; [|intros]; reflexivity].
  rewrite append_eq. cbn. split; [reflexivity | intros e [=]].
Qed.

Section RenderPost.

Variable json_dumps : json -> string.

(** X18: when an event of a request is refused, [render_POST] raises what
    [add_event] raised: the events before it stay in their queues, the
    events after it are not looked at, and [dispatch] is not called, so
    that the request makes no page request at all. *)
Theorem render_POST_stops_at_refused_event (d d1 : EventDispatcher.t)
    (good rest : list json) (bad : json) (out : list effect) (e : exn) :
  for_each good EventDispatcher.add_event d = (Ok tt, d1, out) ->
  outcome (EventDispatcher.add_event bad d1) = Raise e ->
  let r := EventHandler.render_POST json_dumps (JArr (good ++ bad :: rest)) d in
  outcome r = Raise e /\
  state_after r = d1 /\
  posts (effects r) = [].
Proof.
  intros Hgood Hbad.
  destruct (add_event_quiet bad d1) as [Hposts Hstate].
  specialize (Hstate e Hbad).
  destruct (EventDispatcher.add_event bad d1) as [[r2 s2] o2] eqn:Hadd.
  unfold outcome, state_after, effects in Hbad, Hstate, Hposts.
  cbn [fst snd] in Hbad, Hstate, Hposts. subst r2 s2.
  assert (Hquiet : posts out = []).
  { pose proof (for_each_posts EventDispatcher.add_event good d
                  (fun x s' => proj1 (add_event_quiet x s'))) as H.
    rewrite Hgood in H. exact H. }
  cbn zeta. unfold EventHandler.render_POST.
  erewrite bind_ok_state by reflexivity. cbn [outcome state_after effects fst snd].
  erewrite bind_raise by (eapply for_each_stops; [exact Hgood | exact Hadd]).
  cbn [app outcome state_after effects fst snd].
  rewrite posts_app, Hquiet, Hposts. repeat split.
Qed.

(** X19: a body that is not a list is refused, and nothing is changed or
    dispatched: [null], a boolean or a number (an integer within 32 bits,
    which is an [int] everywhere) cannot be iterated, and the [TypeError]
    names its type; of a dictionary with a key, or of a string with a
    character, the first item is not an event ([AttributeError]). *)
Theorem render_POST_refuses_non_list (d : EventDispatcher.t) (content : json) :
  match content with
  | JArr _ => False
  | JObj fields => fields <> ∅
  | JStr s => s <> EmptyString
  | JInt n => (- 2 ^ 31 <= n < 2 ^ 31)%Z
  | _ => True
  end ->
  EventHandler.render_POST json_dumps content d =
  (Raise match content with
         | JObj _ | JStr _ => AttributeError "get"
         | JNull => TypeError "'NoneType' object is not iterable"
         | JBool _ => TypeError "'bool' object is not iterable"
         | JFloat _ => TypeError "'float' object is not iterable"
         | _ => TypeError "'int' object is not iterable"
         end, d, []).
Proof.
  intros Hbad. unfold EventHandler.render_POST.
  destruct content as [| | | |s|items|fields]; try reflexivity; try contradiction.
  - destruct s as [|c s]; [congruence|]. reflexivity.
  - erewrite bind_ok_state by reflexivity. cbn [outcome state_after effects fst snd py_iter].
    destruct (map_to_list fields) as [|[k v] l] eqn:Hl.
    + apply map_to_list_empty_iff in Hl. contradiction.
    + reflexivity.
Qed.

Variable urls : gmap string string.

Lemma add_event_routable (d : EventDispatcher.t) (event : json) :
  configured urls d ->
  routable urls event ->
  outcome (EventDispatcher.add_event event d) = Ok tt.
Proof.
  intros Hconf (tag & event_type & email & Hname & [url Hurl] & Hty & Hem).
  specialize (Hconf tag).
  destruct (EventDispatcher.uploaders d !! tag) as [u|] eqn:Hu; [|congruence].
  unfold EventDispatcher.add_event, bind, lift. rewrite Hname, Hty, Hem. cbn.
  rewrite Hu. reflexivity.
Qed.

(** X20: in every state the dispatcher reaches, a request whose events
    all name a configured deployment (or none, when ['DEFAULT'] is
    configured) and have the fields [event] and [email] is answered [OK],
    whatever the uploaders are doing. *)
Theorem render_POST_accepts_routable_events (calls : list loop_call) (events : list json) :
  Forall (routable urls) events ->
  outcome (EventHandler.render_POST json_dumps (JArr events)
             (loop_play json_dumps (EventDispatcher.create urls) calls)) = Ok "OK".
Proof.
  intros Hevents.
  pose proof (reachable_sound json_dumps urls calls) as Hsound.
  set (d := loop_play json_dumps (EventDispatcher.create urls) calls) in *.
  destruct (for_each_ok (sound json_dumps urls) EventDispatcher.add_event events)
    with (s := d) as [Hok _]; [|exact Hsound|].
  { intros x s Hx Hs. split.
    - apply add_event_routable; [exact (proj1 Hs)|].
      rewrite Forall_forall in Hevents. apply Hevents, list_elem_of_In, Hx.
    - apply add_event_sound. exact Hs. }
  unfold EventHandler.render_POST.
  erewrite bind_ok_state by reflexivity. cbn [outcome state_after effects fst snd py_iter].
  destruct (for_each events EventDispatcher.add_event d) as [[r1 d1] o1] eqn:Hloop.
  cbn in Hok. subst r1.
  erewrite bind_ok_state by exact Hloop. cbn [outcome state_after effects fst snd].
  destruct (dispatch_eq json_dumps d1) as (Hdisp & _ & _).
  destruct (EventDispatcher.dispatch json_dumps d1) as [[r2 d2] o2] eqn:Hdispatch.
  cbn in Hdisp. subst r2.
  erewrite bind_ok_state by exact Hdispatch. reflexivity.
Qed.

End RenderPost.

(** ** The further theorems on the sample data *)

Lemma blocked_while_in_flight_witness :
  Uploader.queue
    (uploader
       (play plain_dumps
          (mkWorld
             (uploader (play plain_dumps (fresh "a" "http://a.example/hook")
                          [Append (sample_event "open" "x@y.com" "a"); Run]))
             [])
          [Append (sample_event "click" "x@y.com" "a"); Run;
           Append (sample_event "bounce" "z@y.com" "a"); Run])) =
  [sample_event "click" "x@y.com" "a"; sample_event "bounce" "z@y.com" "a"].
Proof.
  apply (blocked_while_in_flight plain_dumps
           (uploader (play plain_dumps (fresh "a" "http://a.example/hook")
                        [Append (sample_event "open" "x@y.com" "a"); Run]))
           []
           [Append (sample_event "click" "x@y.com" "a"); Run;
            Append (sample_event "bounce" "z@y.com" "a"); Run]).
  - vm_compute. eauto.
  - reflexivity.
Defined.

Lemma success_keeps_later_events_witness :
  Uploader.queue
    (uploader
       (play plain_dumps
          (mkWorld
             (uploader (play plain_dumps (fresh "a" "http://a.example/hook")
                          [Append (sample_event "open" "x@y.com" "a")]))
             [])
          (Run :: (Append <$> [sample_event "click" "x@y.com" "a"]) ++ [Callback "ok"]))) =
  [sample_event "click" "x@y.com" "a"].
Proof.
  apply (success_keeps_later_events plain_dumps
           (uploader (play plain_dumps (fresh "a" "http://a.example/hook")
                        [Append (sample_event "open" "x@y.com" "a")]))
           [sample_event "click" "x@y.com" "a"] "ok");
    [reflexivity | discriminate].
Defined.

Lemma page_results_are_handled_witness :
  outcome
    (EventDispatcher.on_uploader (JStr "a") (Uploader.deferred_errback "TimeoutError()")
       (loop_play plain_dumps (EventDispatcher.create sample_urls)
          [Post (JArr [sample_event "open" "x@y.com" "a"])])) = Ok tt.
Proof.
  apply (page_results_are_handled plain_dumps sample_urls
           [Post (JArr [sample_event "open" "x@y.com" "a"])] "a" "ok" "TimeoutError()").
  reflexivity.
Defined.

Lemma add_event_routes_to_tag_witness :
  EventDispatcher.uploaders
    (state_after
       (EventDispatcher.add_event (sample_event "open" "x@y.com" "a")
          (EventDispatcher.create sample_urls))) !! "a" =
  Some (Uploader.set_queue
          (Uploader.queue (Uploader.init "a" "http://a.example/hook") ++
           [sample_event "open" "x@y.com" "a"])
          (Uploader.init "a" "http://a.example/hook")).
Proof.
  apply (add_event_routes_to_tag (EventDispatcher.create sample_urls)
           (<["event" := JStr "open"]>
              (<["email" := JStr "x@y.com"]>
                 {["unique_args" := JObj {["deployment" := JStr "a"]}]}))
           {["deployment" := JStr "a"]} "a" (JStr "open") (JStr "x@y.com")
           (Uploader.init "a" "http://a.example/hook"));
    reflexivity.
Defined.


Lemma add_event_needs_dictionaries_witness :
  EventDispatcher.add_event
    (JObj (<["event" := JStr "open"]>
             (<["email" := JStr "x@y.com"]> {["unique_args" := JNull]})))
    (EventDispatcher.create sample_urls) =
  (Raise (AttributeError "get"), EventDispatcher.create sample_urls, []).
Proof.
  apply (add_event_needs_dictionaries (EventDispatcher.create sample_urls)
           (JObj (<["event" := JStr "open"]>
                    (<["email" := JStr "x@y.com"]> {["unique_args" := JNull]})))).
  vm_compute. exact I.
Defined.

Lemma add_event_needs_string_tag_witness :
  outcome
    (EventDispatcher.add_event
       (JObj (<["event" := JStr "open"]>
                (<["email" := JStr "x@y.com"]>
                   {["unique_args" := JObj {["deployment" := JInt 7]}]})))
       (EventDispatcher.create sample_urls)) =
  Raise (KeyError (JInt 7)).
Proof.
  apply (add_event_needs_string_tag (EventDispatcher.create sample_urls)
           (JObj (<["event" := JStr "open"]>
                    (<["email" := JStr "x@y.com"]>
                       {["unique_args" := JObj {["deployment" := JInt 7]}]})))
           (JInt 7) (JStr "open") (JStr "x@y.com"));
    [reflexivity | reflexivity | reflexivity | exact I].
Defined.

Lemma other_uploaders_untouched_witness :
  EventDispatcher.uploaders
    (loop_fire plain_dumps
       (loop_play plain_dumps
          (EventDispatcher.create (<["b" := "http://b.example/hook"]> sample_urls))
          [Post (JArr [sample_event "open" "x@y.com" "a";
                       sample_event "open" "x@y.com" "b"])])
       (PageFailed "a" "TimeoutError()")) !! "b" =
  EventDispatcher.uploaders
    (loop_play plain_dumps
       (EventDispatcher.create (<["b" := "http://b.example/hook"]> sample_urls))
       [Post (JArr [sample_event "open" "x@y.com" "a";
                    sample_event "open" "x@y.com" "b"])]) !! "b".
Proof.
  apply (other_uploaders_untouched plain_dumps
           (loop_play plain_dumps
              (EventDispatcher.create (<["b" := "http://b.example/hook"]> sample_urls))
              [Post (JArr [sample_event "open" "x@y.com" "a";
                           sample_event "open" "x@y.com" "b"])])
           "a" "b" "ok" "TimeoutError()" JNull).
  discriminate.
Defined.

Lemma render_POST_stops_at_refused_event_witness :
  outcome
    (EventHandler.render_POST plain_dumps
       (JArr ([sample_event "open" "x@y.com" "a"] ++
              untagged_event "open" "x@y.com" :: [sample_event "click" "x@y.com" "a"]))
       (EventDispatcher.create sample_urls)) =
  Raise (KeyError (JStr "DEFAULT")).
Proof.
  eapply (render_POST_stops_at_refused_event plain_dumps
            (EventDispatcher.create sample_urls) _
            [sample_event "open" "x@y.com" "a"]
            [sample_event "click" "x@y.com" "a"]
            (untagged_event "open" "x@y.com") _ (KeyError (JStr "DEFAULT")));
    reflexivity.
Defined.

Lemma render_POST_refuses_non_list_witness :
  EventHandler.render_POST plain_dumps (sample_event "open" "x@y.com" "a")
    (EventDispatcher.create sample_urls) =
  (Raise (AttributeError "get"), EventDispatcher.create sample_urls, []).
Proof.
  apply (render_POST_refuses_non_list plain_dumps (EventDispatcher.create sample_urls)
           (sample_event "open" "x@y.com" "a")).
  discriminate.
Defined.

Lemma render_POST_accepts_routable_events_witness :
  outcome
    (EventHandler.render_POST plain_dumps
       (JArr [sample_event "open" "x@y.com" "a"; sample_event "click" "x@y.com" "a"])
       (loop_play plain_dumps (EventDispatcher.create sample_urls)
          [Post (JArr [sample_event "open" "x@y.com" "a"]); PageFailed "a" "err"])) =
  Ok "OK".
Proof.
  apply (render_POST_accepts_routable_events plain_dumps sample_urls
           [Post (JArr [sample_event "open" "x@y.com" "a"]); PageFailed "a" "err"]
           [sample_event "open" "x@y.com" "a"; sample_event "click" "x@y.com" "a"]).
  apply List.Forall_cons; [|apply List.Forall_cons; [|apply List.Forall_nil]].
  - exists "a", (JStr "open"), (JStr "x@y.com").
    split; [reflexivity|]. split; [eexists; reflexivity|]. split; reflexivity.
  - exists "a", (JStr "click"), (JStr "x@y.com").
    split; [reflexivity|]. split; [eexists; reflexivity|]. split; reflexivity.
Defined.

Lemma fifo_in_protocol_witness :
  enqueued
    [Append (sample_event "open" "x@y.com" "a");
     Append (sample_event "click" "x@y.com" "a");
     Run; Errback "TimeoutError()";
     Append (sample_event "bounce" "z@y.com" "a");
     Run; Callback "ok"] =
  in_arrival_order
    (raw_play plain_dumps (fresh "a" "http://a.example/hook")
       [Append (sample_event "open" "x@y.com" "a");
        Append (sample_event "click" "x@y.com" "a");
        Run; Errback "TimeoutError()";
        Append (sample_event "bounce" "z@y.com" "a");
        Run; Callback "ok"]).
Proof.
  apply (fifo_in_protocol plain_dumps "a" "http://a.example/hook"
           [Append (sample_event "open" "x@y.com" "a");
            Append (sample_event "click" "x@y.com" "a");
            Run; Errback "TimeoutError()";
            Append (sample_event "bounce" "z@y.com" "a");
            Run; Callback "ok"]).
  reflexivity.
Defined.

Lemma render_POST_refuses_number_witness :
  EventHandler.render_POST plain_dumps (JInt 7) (EventDispatcher.create sample_urls) =
  (Raise (TypeError "'int' object is not iterable"),
   EventDispatcher.create sample_urls, []).
Proof.
  apply (render_POST_refuses_non_list plain_dumps (EventDispatcher.create sample_urls)
           (JInt 7)).
  lia.
Defined.
